(** * A movie recommendation engine: content similarity, collaborative
      filtering, hybrid scoring and the popularity fallback

    Shallow embedding of [recommendation_engine.py] (class
    [RecommendationEngine]) and, from [data_processor.py], of
    [DataProcessor.preprocess_data] and
    [DataProcessor.get_data_statistics].

    Modelling conventions.
    - A data frame is the list of its rows, in row order.  The catalog
      carries the default positional index (label = position), as the
      frames built by [load_sample_data] and [load_from_csv] do.
    - Scores, ratings and matrix entries are real numbers: the model is
      the exact arithmetic the floating-point code approximates.  The
      theorems about the program state only what rounding preserves:
      order and ties between entries computed alike, signs, entries that
      are exactly zero, and the bounds of a mean rating divided by 5 and
      of 1 minus a distance clipped to [[0,2]].  That a cosine is at most
      1, and exactly 1 on the diagonal, holds in exact arithmetic only
      (lemmas [sim_range] and [sim_diagonal]); the code can return
      1.0000000000000002 there, and these lemmas serve as proof steps.
    - [n_recommendations] is a requested count, a natural number.
    - Genre text is ASCII: word characters are letters, digits and the
      underscore.
    - The numeric library calls are written out from their documented
      definitions: the TF-IDF vectorizer (lower-casing, tokens of two or
      more word characters, stop-word removal, smoothed idf, L2 row
      normalisation), cosine similarity (rows normalised, zero rows left
      at zero, then dot products), the brute-force nearest-neighbour
      search under cosine distance, [pivot_table] (mean aggregation,
      sorted labels, [fill_value]) and [groupby]/[merge]/[sort_values].
      The vectorizer's English stop-word table is not part of the
      repository and is a parameter of the model.
    - Python's [sorted] is stable.  The library sorts ([sort_values],
      the neighbour search) are modelled by the same stable sort; no
      theorem below depends on how they order equal keys. *)

From Stdlib Require Import String Ascii.
From Stdlib Require Import List ZArith Reals Lra Lia Bool.
From Stdlib Require Import Permutation Sorted.
Import ListNotations.

Open Scope R_scope.

(** ** Generic helpers *)

Section StableSort.
Context {A : Type}.

(** [before y x] says that [y] must come strictly before [x]. *)
Variable before : A -> A -> bool.

(** Insert [x], which preceded every element of [l] in the input, into
    the sorted list [l]: it goes in front of the first element that is
    not strictly before it, so equal keys keep their input order. *)
Fixpoint insert_stable (x : A) (l : list A) : list A :=
  match l with
  | [] => [x]
  | y :: l' => if before y x then y :: insert_stable x l' else x :: l
  end.

Definition stable_sort (l : list A) : list A :=
  fold_right insert_stable [] l.

(** A list in which no element is strictly before an earlier one. *)
Definition in_order (l : list A) : Prop :=
  StronglySorted (fun a b => before b a = false) l.
End StableSort.

Definition Rltb (x y : R) : bool := if Rlt_dec x y then true else false.
Definition Rleb (x y : R) : bool := if Rle_dec x y then true else false.

(** [sorted(l, key=key, reverse=True)] and a descending [sort_values]. *)
Definition sort_desc {A : Type} (key : A -> R) (l : list A) : list A :=
  stable_sort (fun y x => Rltb (key x) (key y)) l.

(** A list whose keys never increase. *)
Definition descending {A : Type} (key : A -> R) (l : list A) : Prop :=
  StronglySorted (fun a b => key b <= key a) l.

(** An ascending sort by [key] ([argsort] of distances). *)
Definition sort_asc {A : Type} (key : A -> R) (l : list A) : list A :=
  stable_sort (fun y x => Rltb (key y) (key x)) l.

(** Sorted distinct labels, as [pivot_table] and [groupby] produce. *)
Definition sort_unique (l : list Z) : list Z :=
  stable_sort Z.ltb (nodup Z.eq_dec l).

Definition sum_R (l : list R) : R := fold_right Rplus 0 l.

(** [Series.mean]. *)
Definition mean (l : list R) : R := sum_R l / INR (length l).

(** Position of the first element satisfying [p]. *)
Fixpoint find_index {A : Type} (p : A -> bool) (l : list A) : option nat :=
  match l with
  | [] => None
  | x :: l' => if p x then Some 0%nat else option_map S (find_index p l')
  end.

(** Rows at the given positions ([iloc] with a list of positions); a
    position out of bounds raises [IndexError], here [None]. *)
Fixpoint iloc {A : Type} (l : list A) (positions : list nat) : option (list A) :=
  match positions with
  | [] => Some []
  | i :: rest =>
      match nth_error l i, iloc l rest with
      | Some x, Some xs => Some (x :: xs)
      | _, _ => None
      end
  end.

(** [list(enumerate(l))]. *)
Definition enumerate {A : Type} (l : list A) : list (nat * A) :=
  combine (seq 0 (length l)) l.

(** Exceptions the engine can meet, and results that may raise. *)
Inductive exn := ValueError | IndexError | NotFittedError.

Inductive result (A : Type) :=
| Ok (a : A)
| Raise (e : exn).
Arguments Ok {A} a.
Arguments Raise {A} e.

Definition bind {A B : Type} (r : result A) (k : A -> result B) : result B :=
  match r with
  | Ok a => k a
  | Raise e => Raise e
  end.

(** ** Data model *)

Record Movie := {
  movieId : Z;
  title : string;
  genres : option string;   (* [None] is a missing value *)
  year : option Z
}.

Record Rating := {
  userId : Z;
  rated_movieId : Z;
  rating : R;
  timestamp : option Z
}.

(** A row of a returned frame: the movie's columns and
    [similarity_score]. *)
Record Recommendation := {
  rec_movie : Movie;
  similarity_score : R
}.

Definition rec_id (r : Recommendation) : Z := movieId (rec_movie r).

(** ** The TF-IDF vectorizer *)

Definition is_word_char (c : ascii) : bool :=
  let n := nat_of_ascii c in
  ((48 <=? n) && (n <=? 57) || (65 <=? n) && (n <=? 90)
   || (97 <=? n) && (n <=? 122) || (n =? 95))%nat.

Definition lower_char (c : ascii) : ascii :=
  let n := nat_of_ascii c in
  if ((65 <=? n) && (n <=? 90))%nat then ascii_of_nat (n + 32) else c.

Fixpoint lower (s : string) : string :=
  match s with
  | EmptyString => EmptyString
  | String c s' => String (lower_char c) (lower s')
  end.

(** A finished run of word characters is a token when it has at least
    two characters (token pattern [\b\w\w+\b]). *)
Definition flush_run (run : string) : list string :=
  if (2 <=? String.length run)%nat then [run] else [].

Fixpoint word_runs (s run : string) : list string :=
  match s with
  | EmptyString => flush_run run
  | String c s' =>
      if is_word_char c then word_runs s' (String.append run (String c EmptyString))
      else flush_run run ++ word_runs s' EmptyString
  end.

Definition is_stop_word (stop_words : list string) (t : string) : bool :=
  existsb (String.eqb t) stop_words.

(** The analyzer of [TfidfVectorizer(stop_words='english')]. *)
Definition analyze (stop_words : list string) (doc : string) : list string :=
  filter (fun t => negb (is_stop_word stop_words t))
         (word_runs (lower doc) EmptyString).

(** [fillna('')] on the genres column. *)
Definition fillna_genres (m : Movie) : Movie :=
  {| movieId := movieId m; title := title m;
     genres := Some (match genres m with Some g => g | None => EmptyString end);
     year := year m |}.

Definition genres_text (m : Movie) : string :=
  match genres m with Some g => g | None => EmptyString end.

(** The distinct tokens of the corpus.  The vectorizer numbers them in
    alphabetical order; the order of the features does not change a dot
    product. *)
Definition vocabulary (docs : list (list string)) : list string :=
  nodup string_dec (concat docs).

Definition term_count (t : string) (doc : list string) : nat :=
  count_occ string_dec doc t.

Definition doc_freq (docs : list (list string)) (t : string) : nat :=
  length (filter (fun d => existsb (String.eqb t) d) docs).

(** Smoothed inverse document frequency. *)
Definition idf (docs : list (list string)) (t : string) : R :=
  ln ((1 + INR (length docs)) / (1 + INR (doc_freq docs t))) + 1.

Definition dot (u v : list R) : R :=
  sum_R (map (fun p => fst p * snd p) (combine u v)).

Definition nonneg_vec (v : list R) : Prop := Forall (fun x => 0 <= x) v.

Definition l2_norm (v : list R) : R := sqrt (dot v v).

(** Zero norms are replaced by one, so that zero rows stay zero. *)
Definition handle_zeros (x : R) : R := if Req_dec_T x 0 then 1 else x.

Definition normalize (v : list R) : list R :=
  let n := handle_zeros (l2_norm v) in map (fun x => x / n) v.

(** Term frequency times inverse document frequency, one entry per
    vocabulary term. *)
Definition tfidf_raw (docs : list (list string)) (doc : list string) : list R :=
  map (fun t => INR (term_count t doc) * idf docs t) (vocabulary docs).

Definition tfidf_row (docs : list (list string)) (doc : list string) : list R :=
  normalize (tfidf_raw docs doc).

(** [fit_transform]: fails on an empty vocabulary. *)
Definition fit_transform (stop_words : list string) (texts : list string)
  : option (list (list R)) :=
  let docs := map (analyze stop_words) texts in
  match vocabulary docs with
  | [] => None
  | _ :: _ => Some (map (tfidf_row docs) docs)
  end.

(** [cosine_similarity(X)]. *)
Definition cosine_similarity (X Y : list (list R)) : list (list R) :=
  let Xn := map normalize X in
  let Yn := map normalize Y in
  map (fun x => map (fun y => dot x y) Yn) Xn.

(** ** The user-item matrix *)

Record DataFrame := {
  index : list Z;            (* row labels: user ids *)
  columns : list Z;          (* column labels: movie ids *)
  values : list (list R)
}.

(** One cell of the pivot table: the mean of the ratings of user [u]
    for movie [m], or [fill_value=0] when there is none. *)
Definition pivot_cell (ratings : list Rating) (u m : Z) : R :=
  match filter (fun r => (userId r =? u)%Z && (rated_movieId r =? m)%Z) ratings with
  | [] => 0
  | rs => mean (map rating rs)
  end.

Definition pivot_table (ratings : list Rating) : DataFrame :=
  let users := sort_unique (map userId ratings) in
  let movies := sort_unique (map rated_movieId ratings) in
  {| index := users;
     columns := movies;
     values := map (fun u => map (fun m => pivot_cell ratings u m) movies) users |}.

(** Column [j] of the frame, that is row [j] of its transpose. *)
Definition column (df : DataFrame) (j : nat) : list R :=
  map (fun row => nth j row 0) (values df).

Definition transpose (df : DataFrame) : list (list R) :=
  map (column df) (seq 0 (length (columns df))).

(** ** The engine *)

Record RecommendationEngine := {
  movies_df : list Movie;
  ratings_df : list Rating;
  user_item_matrix : DataFrame;
  content_similarity_matrix : list (list R);
  knn_model : option (list (list R))   (* the fitted rows, once fitted *)
}.

(** [_prepare_content_features]: fills the missing genres of the
    catalog, vectorizes them and returns the filled catalog with the
    similarity matrix. *)
Definition _prepare_content_features (stop_words : list string)
    (movies : list Movie) : result (list Movie * list (list R)) :=
  let movies := map fillna_genres movies in
  match fit_transform stop_words (map genres_text movies) with
  | None => Raise ValueError
  | Some tfidf_matrix =>
      Ok (movies, cosine_similarity tfidf_matrix tfidf_matrix)
  end.

(** [_prepare_collaborative_model]: the model is fitted only when the
    movie-item matrix has a row. *)
Definition _prepare_collaborative_model (uim : DataFrame)
  : option (list (list R)) :=
  let movie_item_matrix := transpose uim in
  if (0 <? length movie_item_matrix)%nat then Some movie_item_matrix else None.

(** [RecommendationEngine(movies_df, ratings_df)]: [__init__] and
    [_prepare_data]. *)
Definition __init__ (stop_words : list string) (movies : list Movie)
    (ratings : list Rating) : result RecommendationEngine :=
  let uim := pivot_table ratings in
  bind (_prepare_content_features stop_words movies) (fun content =>
  Ok {| movies_df := fst content;
        ratings_df := ratings;
        user_item_matrix := uim;
        content_similarity_matrix := snd content;
        knn_model := _prepare_collaborative_model uim |}).

(** ** The popularity fallback *)

Record MovieStats := {
  stat_movieId : Z;
  stat_mean : R;
  stat_count : nat
}.

Definition ratings_of (ratings : list Rating) (m : Z) : list Rating :=
  filter (fun r => (rated_movieId r =? m)%Z) ratings.

(** [groupby('movieId')['rating'].agg(['mean', 'count'])]. *)
Definition groupby_movie (ratings : list Rating) : list MovieStats :=
  map (fun m => {| stat_movieId := m;
                   stat_mean := mean (map rating (ratings_of ratings m));
                   stat_count := length (ratings_of ratings m) |})
      (sort_unique (map rated_movieId ratings)).

(** Inner join on [movieId], in the order of the left keys. *)
Definition merge (stats : list MovieStats) (movies : list Movie)
  : list (MovieStats * Movie) :=
  flat_map (fun g =>
    map (fun m => (g, m))
        (filter (fun m => (movieId m =? stat_movieId g)%Z) movies)) stats.

Definition _get_popular_movies (self : RecommendationEngine)
    (n_recommendations : nat) : list Recommendation :=
  let avg_ratings := groupby_movie (ratings_df self) in
  let avg_ratings := filter (fun g => (10 <=? stat_count g)%nat) avg_ratings in
  let popular_movies := merge avg_ratings (movies_df self) in
  let popular_movies := sort_desc (fun p => stat_mean (fst p)) popular_movies in
  let popular_movies :=
    map (fun p => {| rec_movie := snd p;
                     similarity_score := stat_mean (fst p) / 5 |})
        popular_movies in
  firstn n_recommendations popular_movies.

(** ** Content-based recommendations *)

(** The first catalog row with the given id ([movie_info.iloc[0]]). *)
Definition movie_info (self : RecommendationEngine) (movie_id : Z) : option Movie :=
  find (fun m => (movieId m =? movie_id)%Z) (movies_df self).

Definition content_based_recommendations (self : RecommendationEngine)
    (movie_id : Z) (n_recommendations : nat) : list Recommendation :=
  let attempt :=
    match find_index (fun m => (movieId m =? movie_id)%Z) (movies_df self) with
    | None => Raise IndexError
    | Some movie_idx =>
        match nth_error (content_similarity_matrix self) movie_idx with
        | None => Raise IndexError
        | Some row =>
            let similarity_scores := enumerate row in
            let similarity_scores :=
              firstn n_recommendations (tl (sort_desc snd similarity_scores)) in
            let movie_indices := map fst similarity_scores in
            let similarity_values := map snd similarity_scores in
            match iloc (movies_df self) movie_indices with
            | None => Raise IndexError
            | Some recommendations =>
                Ok (map (fun p => {| rec_movie := fst p;
                                     similarity_score := snd p |})
                        (combine recommendations similarity_values))
            end
        end
    end in
  match attempt with
  | Ok recommendations => recommendations
  | Raise _ => _get_popular_movies self n_recommendations
  end.

(** ** Collaborative filtering *)

Definition clip (lo hi x : R) : R := Rmax lo (Rmin hi x).

(** Cosine distance of the query to every fitted row. *)
Definition cosine_distances (q : list R) (fit_X : list (list R)) : list R :=
  map (fun y => clip 0 2 (1 - dot (normalize q) (normalize y))) fit_X.

(** [kneighbors([q], n_neighbors)]: the [n_neighbors] nearest fitted
    rows as (index, distance), nearest first. *)
Definition kneighbors (model : option (list (list R))) (q : list R)
    (n_neighbors : nat) : result (list (nat * R)) :=
  match model with
  | None => Raise NotFittedError
  | Some fit_X =>
      if ((n_neighbors =? 0) || (length fit_X <? n_neighbors))%nat
      then Raise ValueError
      else Ok (firstn n_neighbors
                 (sort_asc snd (enumerate (cosine_distances q fit_X))))
  end.

(** The body of the loop over [movie_ids] for one seed: the rows it
    appends to [recommendations_list]. *)
Definition similar_movies (self : RecommendationEngine)
    (n_recommendations : nat) (movie_id : Z) : result (list Recommendation) :=
  let uim := user_item_matrix self in
  match find_index (Z.eqb movie_id) (columns uim) with
  | None => Ok []
  | Some movie_idx =>
      bind (kneighbors (knn_model self) (column uim movie_idx)
              (Nat.min (n_recommendations + 1) (length (columns uim))))
        (fun neighbours =>
           Ok (flat_map
                 (fun p =>
                    match movie_info self (nth (fst p) (columns uim) 0%Z) with
                    | Some m => [{| rec_movie := m;
                                    similarity_score := 1 - snd p |}]
                    | None => []
                    end)
                 (tl neighbours)))
  end.

Fixpoint pooled (self : RecommendationEngine) (n_recommendations : nat)
    (movie_ids : list Z) : result (list Recommendation) :=
  match movie_ids with
  | [] => Ok []
  | movie_id :: rest =>
      bind (similar_movies self n_recommendations movie_id) (fun rows =>
      bind (pooled self n_recommendations rest) (fun more =>
      Ok (rows ++ more)))
  end.

(** [drop_duplicates(subset=['movieId'])]: the first row of each id. *)
Fixpoint drop_duplicates (l : list Recommendation) : list Recommendation :=
  match l with
  | [] => []
  | r :: l' =>
      r :: filter (fun r' => negb (rec_id r' =? rec_id r)%Z) (drop_duplicates l')
  end.

Definition collaborative_filtering_recommendations (self : RecommendationEngine)
    (movie_ids : list Z) (n_recommendations : nat) : list Recommendation :=
  match pooled self n_recommendations movie_ids with
  | Ok [] => _get_popular_movies self n_recommendations
  | Ok recommendations_list =>
      firstn n_recommendations
        (sort_desc similarity_score (drop_duplicates recommendations_list))
  | Raise _ => _get_popular_movies self n_recommendations
  end.

(** ** Hybrid recommendations *)

(** [hybrid_scores]: a dictionary in insertion order. *)
Definition scores := list (Z * R).

Fixpoint dict_get (d : scores) (k : Z) (default : R) : R :=
  match d with
  | [] => default
  | (k', v) :: d' => if (k =? k')%Z then v else dict_get d' k default
  end.

Fixpoint dict_set (d : scores) (k : Z) (v : R) : scores :=
  match d with
  | [] => [(k, v)]
  | (k', v') :: d' =>
      if (k =? k')%Z then (k', v) :: d' else (k', v') :: dict_set d' k v
  end.

(** One pass of [hybrid_scores[id] = hybrid_scores.get(id, 0) + w * score]
    over the rows of a frame. *)
Definition accumulate (weight : R) (recs : list Recommendation) (d : scores)
  : scores :=
  fold_left
    (fun d r =>
       dict_set d (rec_id r) (dict_get d (rec_id r) 0 + weight * similarity_score r))
    recs d.

Definition hybrid_recommendations (self : RecommendationEngine)
    (movie_ids : list Z) (n_recommendations : nat)
    (content_weight collab_weight : R) : list Recommendation :=
  let hybrid_scores : scores := [] in
  let hybrid_scores :=
    match movie_ids with
    | [] => hybrid_scores
    | first :: _ =>
        accumulate content_weight
          (content_based_recommendations self first (n_recommendations * 2))
          hybrid_scores
    end in
  let collab_recs :=
    collaborative_filtering_recommendations self movie_ids (n_recommendations * 2) in
  let hybrid_scores := accumulate collab_weight collab_recs hybrid_scores in
  let sorted_movies := sort_desc snd hybrid_scores in
  let top_movie_ids := map fst (firstn n_recommendations sorted_movies) in
  let recommendations :=
    flat_map
      (fun movie_id =>
         match movie_info self movie_id with
         | Some m => [{| rec_movie := m;
                         similarity_score := dict_get hybrid_scores movie_id 0 |}]
         | None => []
         end)
      top_movie_ids in
  match recommendations with
  | [] => _get_popular_movies self n_recommendations
  | _ :: _ => recommendations
  end.

(** ** Recommendations for a user *)

Definition get_user_recommendations (self : RecommendationEngine)
    (user_id : Z) (n_recommendations : nat) : list Recommendation :=
  let uim := user_item_matrix self in
  match find_index (Z.eqb user_id) (index uim) with
  | None => _get_popular_movies self n_recommendations
  | Some i =>
      let user_ratings := combine (columns uim) (nth i (values uim) []) in
      let high_rated_movies :=
        map fst (filter (fun p => Rleb 4 (snd p)) user_ratings) in
      match high_rated_movies with
      | [] => _get_popular_movies self n_recommendations
      | _ :: _ =>
          collaborative_filtering_recommendations self high_rated_movies
            n_recommendations
      end
  end.

(** ** The rating filter of [preprocess_data] *)

Definition preprocess_ratings (movies : list Movie) (ratings : list Rating)
  : list Rating :=
  let valid_movie_ids := nodup Z.eq_dec (map movieId movies) in
  let ratings :=
    filter (fun r => existsb (Z.eqb (rated_movieId r)) valid_movie_ids) ratings in
  filter (fun r => Rleb 0 (rating r) && Rleb (rating r) 5) ratings.

(** ** Vocabulary of the statements *)

(** The tokens the vectorizer sees for each movie of a catalog. *)
Definition catalog_docs (stop_words : list string) (movies : list Movie)
  : list (list string) :=
  map (analyze stop_words) (map genres_text (map fillna_genres movies)).

(** The tokens of one movie's genres. *)
Definition genre_tokens (stop_words : list string) (m : Movie) : list string :=
  analyze stop_words (genres_text m).

(** Entry [(i, j)] of the content similarity matrix. *)
Definition sim (self : RecommendationEngine) (i j : nat) : R :=
  nth j (nth i (content_similarity_matrix self) []) 0.

(** The engine [__init__] builds when the vectorizer succeeds. *)
Definition built (stop_words : list string) (movies : list Movie)
    (ratings : list Rating) : RecommendationEngine :=
  let docs := catalog_docs stop_words movies in
  let tfidf_matrix := map (tfidf_row docs) docs in
  {| movies_df := map fillna_genres movies;
     ratings_df := ratings;
     user_item_matrix := pivot_table ratings;
     content_similarity_matrix := cosine_similarity tfidf_matrix tfidf_matrix;
     knn_model := _prepare_collaborative_model (pivot_table ratings) |}.

(** Excerpt of an English stop-word table, for the examples. *)
Definition sample_stop_words : list string :=
  ["the"; "and"; "of"; "to"; "in"; "is"; "it"]%string.

Definition movie_A : Movie :=
  {| movieId := 1; title := "A"; genres := Some "Drama"%string; year := None |}.
Definition movie_B : Movie :=
  {| movieId := 2; title := "B"; genres := Some "Drama"%string; year := None |}.
Definition movie_C : Movie :=
  {| movieId := 3; title := "C"; genres := Some "Comedy"%string; year := None |}.
(** A movie whose genre list is empty. *)
Definition movie_E : Movie :=
  {| movieId := 4; title := "E"; genres := Some EmptyString; year := None |}.
(** A second catalog row with the id of [movie_A]. *)
Definition movie_A' : Movie :=
  {| movieId := 1; title := "A again"; genres := Some "Comedy"%string; year := None |}.

(** The whole content ranking read off one matrix row, before it is cut
    to the requested length; [d] stands for a position out of bounds. *)
Definition content_ranking (self : RecommendationEngine) (row : list R)
    (d : Movie) : list Recommendation :=
  map (fun p => {| rec_movie := nth (fst p) (movies_df self) d;
                   similarity_score := snd p |})
      (tl (sort_desc snd (enumerate row))).

(** The whole popularity ranking, before it is cut. *)
Definition popular_ranking (self : RecommendationEngine) : list Recommendation :=
  map (fun p => {| rec_movie := snd p; similarity_score := stat_mean (fst p) / 5 |})
      (sort_desc (fun p => stat_mean (fst p))
         (merge (filter (fun g => (10 <=? stat_count g)%nat)
                        (groupby_movie (ratings_df self)))
                (movies_df self))).

(** The doubly normalised TF-IDF rows whose dot products fill the
    similarity matrix. *)
Definition unit_rows (stop_words : list string) (movies : list Movie)
  : list (list R) :=
  let docs := catalog_docs stop_words movies in
  map normalize (map (tfidf_row docs) docs).

(** A rating of a movie that no catalog below has. *)
Definition orphan_rating : Rating :=
  {| userId := 1; rated_movieId := 99; rating := 4; timestamp := None |}.

(** Number and mean of the ratings of a movie id, and the popularity
    threshold on a catalog movie. *)
Definition rating_count (ratings : list Rating) (m : Z) : nat :=
  length (ratings_of ratings m).

Definition mean_rating (ratings : list Rating) (m : Z) : R :=
  mean (map rating (ratings_of ratings m)).


(** The movies a user rated at 4.0 or more, read off the rating rows, in
    the order of the matrix columns. *)
Definition rated_high (ratings : list Rating) (u : Z) : list Z :=
  filter (fun m =>
            existsb (fun r => (userId r =? u)%Z && (rated_movieId r =? m)%Z
                              && Rleb 4 (rating r)) ratings)
         (sort_unique (map rated_movieId ratings)).

(** At most one rating per user and movie. *)
Definition one_rating_per_pair (ratings : list Rating) : Prop :=
  NoDup (map (fun r => (userId r, rated_movieId r)) ratings).

Definition rating_5 (u m : Z) : Rating :=
  {| userId := u; rated_movieId := m; rating := 5; timestamp := None |}.

(** User 7 rates movie 1 twice, at 5.0 and at 1.0, and movie 2 at 2.0. *)
Definition twice_rated : list Rating :=
  [ {| userId := 7; rated_movieId := 1; rating := 5; timestamp := None |};
    {| userId := 7; rated_movieId := 1; rating := 1; timestamp := None |};
    {| userId := 7; rated_movieId := 2; rating := 2; timestamp := None |} ].

(** A second catalog row with the id and the genre of [movie_B]. *)
Definition movie_B' : Movie :=
  {| movieId := 2; title := "B again"; genres := Some "Drama"%string; year := None |}.


(** Ten ratings of 5.0 for movie 1, by users 1 to 10. *)
Definition ten_ratings : list Rating :=
  map (fun u => rating_5 u 1) [1; 2; 3; 4; 5; 6; 7; 8; 9; 10]%Z.

(** Ratings within the valid range. *)
Definition ratings_in_range (ratings : list Rating) : Prop :=
  Forall (fun r => 0 <= rating r <= 5) ratings.

(** What every returned row is expected to satisfy: a catalog movie with
    a score in [[0,1]]. *)
Definition sound_row (self : RecommendationEngine) (r : Recommendation) : Prop :=
  In (rec_movie r) (movies_df self) /\ 0 <= similarity_score r <= 1.

(** ** Vocabulary of the further properties *)

(** The score a frame gives to a movie id, 0 when the id is not in it. *)
Definition score_in (recs : list Recommendation) (movie_id : Z) : R :=
  match find (fun r => (rec_id r =? movie_id)%Z) recs with
  | Some r => similarity_score r
  | None => 0
  end.

(** The content-based frame [hybrid_recommendations] blends: none when
    there is no seed. *)
Definition hybrid_content_part (self : RecommendationEngine) (movie_ids : list Z)
    (n : nat) : list Recommendation :=
  match movie_ids with
  | [] => []
  | first :: _ => content_based_recommendations self first (n * 2)
  end.

(** ** The catalog part of [preprocess_data] *)





(** ** Statistics of the loaded data *)

Record DataStatistics := {
  n_movies : nat;
  n_ratings : nat;
  n_users : nat;
  avg_rating : R;
  rating_distribution : list (R * nat);   (* rating value, number of rows *)
  sparsity : R
}.

(** What [get_data_statistics] does: it returns [None] when a frame is
    not loaded, raises [ZeroDivisionError] when the sparsity divides by
    zero, and returns the statistics otherwise. *)
Inductive statistics_outcome :=
| NotLoaded
| DivisionByZero
| Statistics (stats : DataStatistics).

Definition Reqb (x y : R) : bool := if Req_dec_T x y then true else false.

(** [value_counts().sort_index()]: the distinct values in increasing
    order, each with its number of rows. *)
Definition value_counts (xs : list R) : list (R * nat) :=
  map (fun v => (v, length (filter (Reqb v) xs)))
      (sort_asc (fun v => v) (nodup Req_dec_T xs)).

(** [Series.nunique]. *)
Definition nunique (l : list Z) : nat := length (nodup Z.eq_dec l).

Definition get_data_statistics (movies_df : option (list Movie))
    (ratings_df : option (list Rating)) : statistics_outcome :=
  match movies_df, ratings_df with
  | Some movies, Some ratings =>
      let users := nunique (map userId ratings) in
      if (users * length movies =? 0)%nat then DivisionByZero
      else
        Statistics
          {| n_movies := length movies;
             n_ratings := length ratings;
             n_users := users;
             avg_rating := mean (map rating ratings);
             rating_distribution := value_counts (map rating ratings);
             sparsity :=
               1 - INR (length ratings) / INR (users * length movies) |}
  | _, _ => NotLoaded
  end.

(** * Properties *)

(** ** The stable sort *)

Section StableSortFacts.
Context {A : Type}.
Variable before : A -> A -> bool.

Lemma insert_stable_perm (x : A) (l : list A) :
  Permutation (x :: l) (insert_stable before x l).
Proof.
  induction l as [|y l IH]; simpl; [apply Permutation_refl|].
  destruct (before y x); [|apply Permutation_refl].
  eapply perm_trans; [apply perm_swap|]. now apply perm_skip.
Qed.

Lemma stable_sort_perm (l : list A) : Permutation l (stable_sort before l).
Proof.
  induction l as [|x l IH]; simpl; [constructor|].
  eapply perm_trans; [apply perm_skip, IH|apply insert_stable_perm].
Qed.

Lemma stable_sort_length (l : list A) :
  length (stable_sort before l) = length l.
Proof. symmetry. apply Permutation_length, stable_sort_perm. Qed.

Lemma stable_sort_in (l : list A) (x : A) :
  In x (stable_sort before l) <-> In x l.
Proof.
  split; apply Permutation_in;
    [apply Permutation_sym|]; apply stable_sort_perm.
Qed.

Lemma insert_stable_front (x : A) (l : list A) :
  Forall (fun y => before y x = false) l -> insert_stable before x l = x :: l.
Proof.
  destruct l as [|y l]; [reflexivity|]. intros H. simpl.
  now rewrite (Forall_inv H).
Qed.


(** An ordered prefix that nothing of the rest must precede stays in
    front. *)
Lemma stable_sort_app (l1 l2 : list A) :
  in_order before l1 ->
  (forall a b, In a l1 -> In b l2 -> before b a = false) ->
  stable_sort before (l1 ++ l2) = l1 ++ stable_sort before l2.
Proof.
  induction 1 as [|x l Hl IH Hx]; intros H12; simpl; [reflexivity|].
  rewrite IH by (intros; apply H12; simpl; auto).
  apply insert_stable_front. apply Forall_app. split; [exact Hx|].
  apply Forall_forall. intros b Hb. apply H12; [now left|].
  now apply stable_sort_in.
Qed.

Hypothesis before_asym : forall a b, before a b = true -> before b a = false.
Hypothesis not_before_trans :
  forall a b c, before b a = false -> before c b = false -> before c a = false.

Lemma insert_stable_in_order (x : A) (l : list A) :
  in_order before l -> in_order before (insert_stable before x l).
Proof.
  induction 1 as [|y l Hl IH Hy]; simpl.
  - constructor; constructor.
  - destruct (before y x) eqn:E.
    + constructor; [exact IH|].
      apply Forall_forall. intros z Hz.
      apply (Permutation_in _ (Permutation_sym (insert_stable_perm x l))) in Hz.
      destruct Hz as [<-|Hz]; [now apply before_asym|].
      now apply (proj1 (Forall_forall _ _) Hy).
    + constructor; [now constructor|].
      constructor; [exact E|].
      apply Forall_forall. intros z Hz.
      apply not_before_trans with y; [exact E|].
      now apply (proj1 (Forall_forall _ _) Hy).
Qed.

Lemma stable_sort_in_order (l : list A) : in_order before (stable_sort before l).
Proof.
  induction l as [|x l IH]; simpl; [constructor|].
  now apply insert_stable_in_order.
Qed.
End StableSortFacts.

Lemma Rltb_false_iff (x y : R) : Rltb x y = false <-> y <= x.
Proof. unfold Rltb. destruct (Rlt_dec x y); split; intros; try lra; easy. Qed.

Lemma Rltb_true_iff (x y : R) : Rltb x y = true <-> x < y.
Proof. unfold Rltb. destruct (Rlt_dec x y); split; intros; try lra; easy. Qed.

Lemma Rleb_true_iff (x y : R) : Rleb x y = true <-> x <= y.
Proof. unfold Rleb. destruct (Rle_dec x y); split; intros; try lra; easy. Qed.

Lemma Rleb_false_iff (x y : R) : Rleb x y = false <-> y < x.
Proof. unfold Rleb. destruct (Rle_dec x y); split; intros; try lra; easy. Qed.

Section SortByKey.
Context {A : Type}.
Variable key : A -> R.

Lemma descending_in_order (l : list A) :
  descending key l <-> in_order (fun y x => Rltb (key x) (key y)) l.
Proof.
  unfold descending, in_order.
  split; induction 1 as [|x l Hl IH Hx]; constructor; auto;
    (eapply Forall_impl; [|exact Hx]); intros b Hb; cbv beta in *;
    now apply Rltb_false_iff.
Qed.

Lemma sort_desc_perm (l : list A) : Permutation l (sort_desc key l).
Proof. apply stable_sort_perm. Qed.

Lemma sort_desc_length (l : list A) : length (sort_desc key l) = length l.
Proof. apply stable_sort_length. Qed.

Lemma sort_desc_in (l : list A) (x : A) : In x (sort_desc key l) <-> In x l.
Proof. apply stable_sort_in. Qed.

Lemma sort_desc_descending (l : list A) : descending key (sort_desc key l).
Proof.
  apply descending_in_order. apply stable_sort_in_order.
  - intros a b H. apply Rltb_true_iff in H. apply Rltb_false_iff. lra.
  - intros a b c H1 H2. apply Rltb_false_iff in H1, H2.
    apply Rltb_false_iff. lra.
Qed.


Lemma sort_desc_app (l1 l2 : list A) :
  descending key l1 ->
  (forall a b, In a l1 -> In b l2 -> key b <= key a) ->
  sort_desc key (l1 ++ l2) = l1 ++ sort_desc key l2.
Proof.
  intros H1 H12. apply stable_sort_app.
  - now apply descending_in_order.
  - intros a b Ha Hb. apply Rltb_false_iff. now apply H12.
Qed.
End SortByKey.

(** ** Dot products and normalised vectors *)

Lemma dot_nil_r (u : list R) : dot u [] = 0.
Proof. destruct u; reflexivity. Qed.

Lemma dot_cons (x y : R) (u v : list R) :
  dot (x :: u) (y :: v) = x * y + dot u v.
Proof. reflexivity. Qed.

Lemma dot_comm (u v : list R) : dot u v = dot v u.
Proof.
  revert v. induction u as [|x u IH]; intros [|y v]; try reflexivity.
  rewrite !dot_cons, IH. ring.
Qed.

Lemma dot_self_nonneg (v : list R) : 0 <= dot v v.
Proof.
  induction v as [|x v IH]; [unfold dot; simpl; lra|].
  rewrite dot_cons. nra.
Qed.

Lemma dot_nonneg (u v : list R) : nonneg_vec u -> nonneg_vec v -> 0 <= dot u v.
Proof.
  intros Hu. revert v. induction Hu as [|x u Hx Hu IH]; intros v Hv.
  - unfold dot; simpl; lra.
  - destruct Hv as [|y v Hy Hv]; [rewrite dot_nil_r; lra|].
    rewrite dot_cons. specialize (IH v Hv). nra.
Qed.

Lemma dot_le_squares (u v : list R) : 2 * dot u v <= dot u u + dot v v.
Proof.
  revert v. induction u as [|x u IH]; intros [|y v].
  - unfold dot; simpl; lra.
  - pose proof (dot_self_nonneg (y :: v)).
    change (dot [] (y :: v)) with 0. change (dot [] []) with 0. lra.
  - pose proof (dot_self_nonneg (x :: u)). rewrite !dot_nil_r. lra.
  - rewrite !dot_cons. specialize (IH v).
    pose proof (Rle_0_sqr (x - y)) as Hsq. unfold Rsqr in Hsq. lra.
Qed.

Lemma dot_scale (a b : R) (u v : list R) :
  a <> 0 -> b <> 0 ->
  dot (map (fun x => x / a) u) (map (fun x => x / b) v) = dot u v / (a * b).
Proof.
  intros Ha Hb. revert v. induction u as [|x u IH]; intros [|y v]; simpl;
    try (unfold dot; simpl; field; auto).
  rewrite !dot_cons, IH. field. auto.
Qed.

Lemma handle_zeros_pos (x : R) : 0 <= x -> 0 < handle_zeros x.
Proof. intros H. unfold handle_zeros. destruct (Req_dec_T x 0); lra. Qed.

Lemma l2_norm_nonneg (v : list R) : 0 <= l2_norm v.
Proof. apply sqrt_pos. Qed.

Lemma normalize_nonneg (v : list R) : nonneg_vec v -> nonneg_vec (normalize v).
Proof.
  intros H. unfold normalize, nonneg_vec.
  pose proof (handle_zeros_pos _ (l2_norm_nonneg v)) as Hn.
  apply Forall_map. eapply Forall_impl; [|exact H].
  intros x Hx. cbv beta. apply Rmult_le_pos; [exact Hx|].
  left. now apply Rinv_0_lt_compat.
Qed.

(** A normalised vector has squared length one, unless it was zero. *)
Lemma normalize_squares (v : list R) :
  dot (normalize v) (normalize v) = if Req_dec_T (dot v v) 0 then 0 else 1.
Proof.
  pose proof (dot_self_nonneg v) as Hv.
  unfold normalize, handle_zeros, l2_norm.
  destruct (Req_dec_T (dot v v) 0) as [E|N].
  - rewrite E, sqrt_0. destruct (Req_dec_T 0 0) as [_|C]; [|contradiction].
    rewrite dot_scale by lra. rewrite E. field.
  - destruct (Req_dec_T (sqrt (dot v v)) 0) as [E|N'].
    + apply sqrt_eq_0 in E; [contradiction|exact Hv].
    + rewrite dot_scale by assumption. rewrite sqrt_sqrt by exact Hv.
      now field.
Qed.

Lemma normalize_squares_le (v : list R) : dot (normalize v) (normalize v) <= 1.
Proof. rewrite normalize_squares. destruct (Req_dec_T _ _); lra. Qed.

(** Cosine similarity of vectors without negative entries lies in
    [[0,1]]. *)
Lemma cosine_range (u v : list R) :
  nonneg_vec u -> nonneg_vec v ->
  0 <= dot (normalize u) (normalize v) <= 1.
Proof.
  intros Hu Hv. split.
  - apply dot_nonneg; now apply normalize_nonneg.
  - pose proof (dot_le_squares (normalize u) (normalize v)).
    pose proof (normalize_squares_le u). pose proof (normalize_squares_le v).
    lra.
Qed.

(** ** Construction *)

Lemma genres_text_fillna (m : Movie) : genres_text (fillna_genres m) = genres_text m.
Proof. unfold genres_text, fillna_genres. simpl. now destruct (genres m). Qed.

Lemma catalog_docs_tokens (sw : list string) (movies : list Movie) :
  catalog_docs sw movies = map (genre_tokens sw) movies.
Proof.
  unfold catalog_docs, genre_tokens. rewrite !map_map.
  apply map_ext. intros m. now rewrite genres_text_fillna.
Qed.

(** Construction succeeds exactly when some genre text yields a token,
    and then builds [built]. *)
Lemma init_ok (sw : list string) (movies : list Movie) (ratings : list Rating) :
  vocabulary (catalog_docs sw movies) <> [] ->
  __init__ sw movies ratings = Ok (built sw movies ratings).
Proof.
  intros H. unfold __init__, _prepare_content_features, fit_transform, built.
  fold (catalog_docs sw movies).
  destruct (vocabulary (catalog_docs sw movies)); [contradiction|reflexivity].
Qed.

Lemma init_raise (sw : list string) (movies : list Movie) (ratings : list Rating) :
  vocabulary (catalog_docs sw movies) = [] ->
  __init__ sw movies ratings = Raise ValueError.
Proof.
  intros H. unfold __init__, _prepare_content_features, fit_transform.
  fold (catalog_docs sw movies). now rewrite H.
Qed.

Lemma init_inv (sw : list string) (movies : list Movie) (ratings : list Rating)
    (self : RecommendationEngine) :
  __init__ sw movies ratings = Ok self ->
  vocabulary (catalog_docs sw movies) <> [] /\ self = built sw movies ratings.
Proof.
  intros H.
  destruct (vocabulary (catalog_docs sw movies)) eqn:E.
  - rewrite init_raise in H by exact E. discriminate.
  - rewrite init_ok in H by (rewrite E; discriminate).
    split; [discriminate|congruence].
Qed.

(** ** TF-IDF rows *)

Lemma doc_freq_le (docs : list (list string)) (t : string) :
  (doc_freq docs t <= length docs)%nat.
Proof. apply filter_length_le. Qed.

Lemma idf_pos (docs : list (list string)) (t : string) : 1 <= idf docs t.
Proof.
  unfold idf.
  pose proof (doc_freq_le docs t) as Hle. apply le_INR in Hle.
  pose proof (pos_INR (doc_freq docs t)) as Hdf.
  assert (Hq : 1 <= (1 + INR (length docs)) / (1 + INR (doc_freq docs t))).
  { apply Rmult_le_reg_r with (1 + INR (doc_freq docs t)); [lra|].
    unfold Rdiv. rewrite Rmult_assoc, Rinv_l by lra. lra. }
  destruct Hq as [Hq|Hq].
  - pose proof (ln_increasing _ _ Rlt_0_1 Hq) as Hln. rewrite ln_1 in Hln. lra.
  - rewrite <- Hq, ln_1. lra.
Qed.

Lemma tfidf_raw_nonneg (docs : list (list string)) (doc : list string) :
  nonneg_vec (tfidf_raw docs doc).
Proof.
  unfold tfidf_raw, nonneg_vec. apply Forall_map, Forall_forall.
  intros t _. pose proof (idf_pos docs t). pose proof (pos_INR (term_count t doc)).
  nra.
Qed.

Lemma tfidf_row_nonneg (docs : list (list string)) (doc : list string) :
  nonneg_vec (tfidf_row docs doc).
Proof. apply normalize_nonneg, tfidf_raw_nonneg. Qed.

Lemma dot_zero (v : list R) : Forall (fun x => x = 0) v -> dot v v = 0.
Proof.
  induction 1 as [|x v Hx Hv IH]; [reflexivity|].
  rewrite dot_cons, IH, Hx. ring.
Qed.

Lemma dot_self_ge (v : list R) (x : R) : In x v -> x * x <= dot v v.
Proof.
  induction v as [|y v IH]; [contradiction|].
  intros [->|H]; rewrite dot_cons.
  - pose proof (dot_self_nonneg v). lra.
  - specialize (IH H). nra.
Qed.

(** A movie without tokens gets the zero vector. *)
Lemma tfidf_raw_empty (docs : list (list string)) :
  dot (tfidf_raw docs []) (tfidf_raw docs []) = 0.
Proof.
  apply dot_zero. unfold tfidf_raw. apply Forall_map, Forall_forall.
  intros t _. simpl. ring.
Qed.

(** A movie with a token gets a vector that is not zero. *)
Lemma tfidf_raw_token (docs : list (list string)) (doc : list string) :
  In doc docs -> doc <> [] -> dot (tfidf_raw docs doc) (tfidf_raw docs doc) <> 0.
Proof.
  intros Hin Hne. destruct doc as [|t doc]; [contradiction|].
  assert (Hv : In t (vocabulary docs)).
  { unfold vocabulary. apply nodup_In, in_concat.
    exists (t :: doc). split; [exact Hin|now left]. }
  pose proof (dot_self_ge (tfidf_raw docs (t :: doc))
                (INR (term_count t (t :: doc)) * idf docs t)) as Hge.
  assert (Hc : 1 <= INR (term_count t (t :: doc))).
  { unfold term_count. rewrite count_occ_cons_eq by reflexivity.
    rewrite S_INR. pose proof (pos_INR (count_occ string_dec doc t)). lra. }
  pose proof (idf_pos docs t) as Hidf.
  assert (Hin' : In (INR (term_count t (t :: doc)) * idf docs t)
                   (tfidf_raw docs (t :: doc))).
  { unfold tfidf_raw. apply in_map_iff. exists t. split; [reflexivity|exact Hv]. }
  specialize (Hge Hin'). intros E. rewrite E in Hge.
  assert (Hp : 1 <= INR (term_count t (t :: doc)) * idf docs t) by nra.
  nra.
Qed.

(** ** The content similarity matrix *)

Lemma nth_map_in {A B : Type} (f : A -> B) (l : list A) (i : nat) (d : A) (d' : B) :
  (i < length l)%nat -> nth i (map f l) d' = f (nth i l d).
Proof.
  intros H. rewrite nth_indep with (d' := f d) by now rewrite length_map.
  apply map_nth.
Qed.

(** The normalised TF-IDF row of the movie at position [i]. *)
Lemma sim_built (sw : list string) (movies : list Movie) (ratings : list Rating)
    (i j : nat) :
  (i < length movies)%nat -> (j < length movies)%nat ->
  let docs := catalog_docs sw movies in
  sim (built sw movies ratings) i j =
  dot (normalize (tfidf_row docs (nth i docs [])))
      (normalize (tfidf_row docs (nth j docs []))).
Proof.
  intros Hi Hj docs. unfold sim, built, cosine_similarity. simpl.
  fold docs.
  assert (Hlen : length docs = length movies).
  { unfold docs, catalog_docs. now rewrite !length_map. }
  rewrite nth_map_in with (d := []) by now rewrite !length_map, Hlen.
  rewrite nth_map_in with (d := []) by now rewrite !length_map, Hlen.
  rewrite !nth_map_in with (d := []) by now rewrite ?length_map, Hlen.
  reflexivity.
Qed.

Lemma sim_symmetric (sw : list string) (movies : list Movie) (ratings : list Rating)
    (i j : nat) :
  (i < length movies)%nat -> (j < length movies)%nat ->
  sim (built sw movies ratings) i j = sim (built sw movies ratings) j i.
Proof.
  intros Hi Hj. rewrite !sim_built by assumption. apply dot_comm.
Qed.

Lemma sim_range (sw : list string) (movies : list Movie) (ratings : list Rating)
    (i j : nat) :
  (i < length movies)%nat -> (j < length movies)%nat ->
  0 <= sim (built sw movies ratings) i j <= 1.
Proof.
  intros Hi Hj. rewrite sim_built by assumption.
  apply cosine_range; apply tfidf_row_nonneg.
Qed.

Lemma catalog_docs_nth (sw : list string) (movies : list Movie) (i : nat) (m : Movie) :
  nth_error movies i = Some m ->
  nth i (catalog_docs sw movies) [] = genre_tokens sw m
  /\ In (genre_tokens sw m) (catalog_docs sw movies)
  /\ (i < length movies)%nat.
Proof.
  intros H. rewrite catalog_docs_tokens.
  assert (Hi : (i < length movies)%nat) by (apply nth_error_Some; congruence).
  repeat split; [|apply in_map, (nth_error_In _ _ H)|exact Hi].
  rewrite nth_map_in with (d := m) by exact Hi.
  f_equal. now apply nth_error_nth.
Qed.

(** The diagonal: one for a movie with a token, zero for a movie with
    none. *)
Lemma sim_diagonal (sw : list string) (movies : list Movie) (ratings : list Rating)
    (i : nat) (m : Movie) :
  nth_error movies i = Some m ->
  sim (built sw movies ratings) i i =
  match genre_tokens sw m with [] => 0 | _ :: _ => 1 end.
Proof.
  intros H. destruct (catalog_docs_nth sw movies i m H) as (Hnth & Hin & Hi).
  rewrite sim_built by assumption. cbv zeta. rewrite Hnth.
  unfold tfidf_row. rewrite !normalize_squares.
  destruct (genre_tokens sw m) as [|t doc] eqn:E.
  - rewrite tfidf_raw_empty.
    destruct (Req_dec_T 0 0) as [_|C]; [|contradiction].
    now destruct (Req_dec_T 0 0).
  - pose proof (tfidf_raw_token _ _ Hin) as Hne.
    destruct (Req_dec_T (dot _ _) 0) as [C|_];
      [exfalso; apply Hne; [discriminate|exact C]|].
    destruct (Req_dec_T 1 0); [lra|reflexivity].
Qed.

Lemma analyze_empty (sw : list string) : analyze sw EmptyString = [].
Proof. reflexivity. Qed.

Lemma dot_zero_l (u v : list R) : Forall (fun x => x = 0) u -> dot u v = 0.
Proof.
  intros H. revert v. induction H as [|x u Hx Hu IH]; intros v.
  - reflexivity.
  - destruct v as [|y v]; [apply dot_nil_r|].
    rewrite dot_cons, IH, Hx. ring.
Qed.

Lemma normalize_zero (v : list R) :
  Forall (fun x => x = 0) v -> Forall (fun x => x = 0) (normalize v).
Proof.
  intros H. unfold normalize. apply Forall_map. revert H.
  apply Forall_impl. intros x ->. unfold Rdiv. ring.
Qed.

Lemma tfidf_raw_no_token (docs : list (list string)) :
  Forall (fun x => x = 0) (tfidf_raw docs []).
Proof.
  unfold tfidf_raw. apply Forall_map, Forall_forall.
  intros t _. simpl. ring.
Qed.

(** The matrix row of a movie without tokens is zero. *)
Lemma sim_zero_row (sw : list string) (movies : list Movie) (ratings : list Rating)
    (i j : nat) (m : Movie) :
  nth_error movies i = Some m -> (j < length movies)%nat ->
  genre_tokens sw m = [] -> sim (built sw movies ratings) i j = 0.
Proof.
  intros H Hj Hno. destruct (catalog_docs_nth sw movies i m H) as (Hnth & _ & Hi).
  rewrite sim_built by assumption. cbv zeta. rewrite Hnth, Hno.
  apply dot_zero_l. unfold tfidf_row.
  apply normalize_zero, normalize_zero, tfidf_raw_no_token.
Qed.

(** C4, as the code has it: the content similarity matrix of a
    constructed engine is symmetric and has no negative entry.  The row of
    a movie whose genre text yields no token, in particular of a movie
    with a missing or empty genre list, is zero, so its diagonal entry is
    0 and not 1; the diagonal entry of a movie whose genre text yields a
    token is positive.  No upper bound and no exact diagonal value is
    stated for the other movies: the code computes these entries in
    floating point, where a rounded cosine need not be exactly 1. *)
Theorem content_similarity_matrix_properties
    (sw : list string) (movies : list Movie) (ratings : list Rating)
    (self : RecommendationEngine) (i j : nat) (m : Movie) :
  __init__ sw movies ratings = Ok self ->
  nth_error movies i = Some m -> (j < length movies)%nat ->
  sim self i j = sim self j i
  /\ 0 <= sim self i j
  /\ (genre_tokens sw m = [] -> sim self i j = 0)
  /\ (genre_tokens sw m <> [] -> 0 < sim self i i)
  /\ (genres m = None \/ genres m = Some EmptyString -> sim self i i = 0).
Proof.
  intros Hinit Hm Hj. apply init_inv in Hinit as [_ ->].
  assert (Hi : (i < length movies)%nat) by (apply nth_error_Some; congruence).
  split; [now apply sim_symmetric|].
  split; [now apply sim_range|].
  split; [now apply sim_zero_row|].
  split.
  - intros Hne. rewrite (sim_diagonal _ _ _ _ _ Hm).
    destruct (genre_tokens sw m); [contradiction|lra].
  - intros Hg. apply (sim_zero_row sw movies ratings i i m Hm Hi).
    unfold genre_tokens, genres_text.
    destruct Hg as [-> | ->]; now rewrite analyze_empty.
Qed.

Lemma sample_vocabulary_AE :
  vocabulary (catalog_docs sample_stop_words [movie_A; movie_E]) <> [].
Proof. vm_compute. discriminate. Qed.

Lemma content_similarity_matrix_properties_witness :
  sim (built sample_stop_words [movie_A; movie_E] []) 1 0 = 0
  /\ sim (built sample_stop_words [movie_A; movie_E] []) 1 1 = 0.
Proof.
  destruct (content_similarity_matrix_properties sample_stop_words
              [movie_A; movie_E] [] _ 1%nat 0%nat movie_E
              (init_ok _ _ _ sample_vocabulary_AE) eq_refl)
    as (_ & _ & Hrow & _ & Hdiag).
  - simpl. lia.
  - split; [apply Hrow; reflexivity|apply Hdiag; right; reflexivity].
Defined.

(** C4 as stated fails: the movie with an empty genre list has diagonal
    entry 0, not 1. *)
Lemma content_similarity_diagonal_counterexample :
  exists self,
    __init__ sample_stop_words [movie_A; movie_E] [] = Ok self
    /\ genres movie_E = Some EmptyString
    /\ sim self 1 1 <> 1.
Proof.
  exists (built sample_stop_words [movie_A; movie_E] []).
  split; [apply init_ok, sample_vocabulary_AE|].
  split; [reflexivity|].
  rewrite (sim_diagonal _ _ _ 1%nat movie_E) by reflexivity.
  simpl. lra.
Qed.

(** ** Lists: positions, lookups *)

Lemma combine_fst {A B : Type} (l : list A) (l' : list B) :
  length l = length l' -> map fst (combine l l') = l.
Proof.
  revert l'. induction l as [|x l IH]; intros [|y l'] H; simpl in *;
    try reflexivity; try discriminate.
  f_equal. apply IH. lia.
Qed.

Lemma combine_snd {A B : Type} (l : list A) (l' : list B) :
  length l = length l' -> map snd (combine l l') = l'.
Proof.
  revert l'. induction l as [|x l IH]; intros [|y l'] H; simpl in *;
    try reflexivity; try discriminate.
  f_equal. apply IH. lia.
Qed.

Lemma in_firstn {A : Type} (n : nat) (l : list A) (x : A) :
  In x (firstn n l) -> In x l.
Proof.
  revert l. induction n as [|n IH]; intros [|y l]; simpl; try contradiction.
  intros [->|H]; [now left|right; now apply IH].
Qed.

Lemma in_tl {A : Type} (l : list A) (x : A) : In x (tl l) -> In x l.
Proof. destruct l; simpl; auto. Qed.

Lemma enumerate_fst {A : Type} (l : list A) :
  map fst (enumerate l) = seq 0 (length l).
Proof. unfold enumerate. apply combine_fst. now rewrite length_seq. Qed.

Lemma enumerate_snd {A : Type} (l : list A) : map snd (enumerate l) = l.
Proof. unfold enumerate. apply combine_snd. now rewrite length_seq. Qed.

Lemma enumerate_length {A : Type} (l : list A) : length (enumerate l) = length l.
Proof. rewrite <- (length_map fst), enumerate_fst. apply length_seq. Qed.

Lemma enumerate_in {A : Type} (l : list A) (p : nat * A) :
  In p (enumerate l) -> (fst p < length l)%nat.
Proof.
  intros H. apply (in_map fst) in H. rewrite enumerate_fst in H.
  apply in_seq in H. lia.
Qed.

Lemma find_index_none {A : Type} (p : A -> bool) (l : list A) :
  (forall x, In x l -> p x = false) -> find_index p l = None.
Proof.
  induction l as [|x l IH]; intros H; simpl; [reflexivity|].
  rewrite (H x) by now left. rewrite IH; [reflexivity|].
  intros y Hy. apply H. now right.
Qed.

Lemma find_index_some {A : Type} (p : A -> bool) (l : list A) (i : nat) :
  find_index p l = Some i ->
  exists x, nth_error l i = Some x /\ p x = true.
Proof.
  revert i. induction l as [|x l IH]; intros i; simpl; [discriminate|].
  destruct (p x) eqn:E.
  - intros [= <-]. now exists x.
  - destruct (find_index p l) as [k|]; simpl; [|discriminate].
    intros [= <-]. exact (IH k eq_refl).
Qed.

Lemma find_index_exists {A : Type} (p : A -> bool) (l : list A) (x : A) :
  In x l -> p x = true -> exists i, find_index p l = Some i.
Proof.
  induction l as [|y l IH]; intros Hin Hp; [contradiction|]. simpl.
  destruct (p y) eqn:E; [now exists 0%nat|].
  destruct Hin as [->|Hin]; [congruence|].
  destruct (IH Hin Hp) as [i ->]. now exists (S i).
Qed.

Lemma iloc_in_range {A : Type} (l : list A) (positions : list nat) (d : A) :
  Forall (fun i => (i < length l)%nat) positions ->
  iloc l positions = Some (map (fun i => nth i l d) positions).
Proof.
  induction 1 as [|i ps Hi Hps IH]; simpl; [reflexivity|].
  rewrite IH. destruct (nth_error l i) as [x|] eqn:E.
  - now rewrite (nth_error_nth _ _ d E).
  - apply nth_error_None in E. lia.
Qed.

Lemma firstn_firstn_double {A : Type} (n : nat) (l : list A) :
  firstn n (firstn (n * 2) l) = firstn n l.
Proof. rewrite firstn_firstn. f_equal. lia. Qed.

(** ** Content-based recommendations *)

Lemma popular_is_ranking (self : RecommendationEngine) (n : nat) :
  _get_popular_movies self n = firstn n (popular_ranking self).
Proof. reflexivity. Qed.

(** A movie id that the catalog does not have gives the fallback. *)
Lemma content_based_absent (self : RecommendationEngine) (movie_id : Z) (n : nat) :
  ~ In movie_id (map movieId (movies_df self)) ->
  content_based_recommendations self movie_id n = _get_popular_movies self n.
Proof.
  intros H. unfold content_based_recommendations.
  rewrite find_index_none; [reflexivity|].
  intros m Hm. apply Z.eqb_neq. intros E. apply H. rewrite <- E.
  now apply in_map.
Qed.

(** A movie id found at row [i] gives the head of the ranking of that
    row. *)
Lemma content_based_found (self : RecommendationEngine) (movie_id : Z) (n i : nat)
    (row : list R) (d : Movie) :
  find_index (fun m => (movieId m =? movie_id)%Z) (movies_df self) = Some i ->
  nth_error (content_similarity_matrix self) i = Some row ->
  (length row <= length (movies_df self))%nat ->
  content_based_recommendations self movie_id n =
  firstn n (content_ranking self row d).
Proof.
  intros Hi Hrow Hlen. unfold content_based_recommendations, content_ranking.
  rewrite Hi, Hrow.
  set (picked := firstn n (tl (sort_desc snd (enumerate row)))).
  assert (Hrange : Forall (fun i => (i < length (movies_df self))%nat)
                          (map fst picked)).
  { apply Forall_map, Forall_forall. intros p Hp. unfold picked in Hp.
    apply in_firstn, in_tl, sort_desc_in, enumerate_in in Hp. lia. }
  rewrite (iloc_in_range _ _ d Hrange).
  rewrite firstn_map. fold picked.
  clear. induction picked as [|p l IH]; simpl; [reflexivity|].
  now rewrite IH.
Qed.

Lemma built_matrix (sw : list string) (movies : list Movie) (ratings : list Rating) :
  content_similarity_matrix (built sw movies ratings) =
  map (fun x => map (fun y => dot x y) (unit_rows sw movies)) (unit_rows sw movies).
Proof. reflexivity. Qed.

Lemma unit_rows_length (sw : list string) (movies : list Movie) :
  length (unit_rows sw movies) = length movies.
Proof. unfold unit_rows, catalog_docs. now rewrite !length_map. Qed.

Lemma unit_rows_in (sw : list string) (movies : list Movie) (u : list R) :
  In u (unit_rows sw movies) ->
  exists doc, u = normalize (tfidf_row (catalog_docs sw movies) doc).
Proof.
  unfold unit_rows. rewrite map_map. intros H.
  apply in_map_iff in H as (doc & <- & _). now exists doc.
Qed.

(** Every row of the matrix has one entry per catalog movie, each in
    [[0,1]]. *)
Lemma built_row (sw : list string) (movies : list Movie) (ratings : list Rating)
    (i : nat) :
  (i < length movies)%nat ->
  exists row,
    nth_error (content_similarity_matrix (built sw movies ratings)) i = Some row
    /\ length row = length movies
    /\ Forall (fun x => 0 <= x <= 1) row.
Proof.
  intros Hi. rewrite built_matrix.
  destruct (nth_error (unit_rows sw movies) i) as [u|] eqn:E.
  2:{ apply nth_error_None in E. rewrite unit_rows_length in E. lia. }
  exists (map (fun y => dot u y) (unit_rows sw movies)).
  split.
  { apply (map_nth_error
             (fun x => map (fun y => dot x y) (unit_rows sw movies)) _ _ E). }
  split; [now rewrite length_map, unit_rows_length|].
  apply Forall_map, Forall_forall. intros v Hv. cbv beta.
  apply nth_error_In in E.
  destruct (unit_rows_in _ _ _ E) as [du ->].
  destruct (unit_rows_in _ _ _ Hv) as [dv ->].
  apply cosine_range; apply tfidf_row_nonneg.
Qed.

Lemma built_movies (sw : list string) (movies : list Movie) (ratings : list Rating) :
  map movieId (movies_df (built sw movies ratings)) = map movieId movies.
Proof. simpl. rewrite map_map. reflexivity. Qed.

Lemma built_movies_length (sw : list string) (movies : list Movie)
    (ratings : list Rating) :
  length (movies_df (built sw movies ratings)) = length movies.
Proof. simpl. apply length_map. Qed.

(** For a catalog movie the row is there and the ranking is cut to [n]. *)
Lemma content_based_built (sw : list string) (movies : list Movie)
    (ratings : list Rating) (movie_id : Z) (d : Movie) :
  In movie_id (map movieId movies) ->
  exists i row,
    (i < length movies)%nat
    /\ nth_error (content_similarity_matrix (built sw movies ratings)) i = Some row
    /\ length row = length movies
    /\ Forall (fun x => 0 <= x <= 1) row
    /\ forall n,
         content_based_recommendations (built sw movies ratings) movie_id n =
         firstn n (content_ranking (built sw movies ratings) row d).
Proof.
  intros Hin. set (self := built sw movies ratings).
  assert (Hex : exists i, find_index (fun m => (movieId m =? movie_id)%Z)
                            (movies_df self) = Some i).
  { rewrite <- (built_movies sw movies ratings) in Hin. fold self in Hin.
    apply in_map_iff in Hin as (m & Hm & Hin).
    apply (find_index_exists _ _ m Hin). now apply Z.eqb_eq. }
  destruct Hex as [i Hi].
  assert (Hlt : (i < length movies)%nat).
  { destruct (find_index_some _ _ _ Hi) as (m & Hm & _).
    rewrite <- (built_movies_length sw movies ratings).
    apply nth_error_Some. fold self. congruence. }
  destruct (built_row sw movies ratings i Hlt) as (row & Hrow & Hlen & Hrange).
  exists i, row. repeat split; try assumption.
  intros n. apply content_based_found with (i := i); try assumption.
  unfold self. rewrite built_movies_length. lia.
Qed.

Lemma content_ranking_length (self : RecommendationEngine) (row : list R) (d : Movie) :
  length (content_ranking self row d) = (length row - 1)%nat.
Proof.
  unfold content_ranking. rewrite length_map.
  pose proof (sort_desc_length (@snd nat R) (enumerate row)) as H.
  rewrite enumerate_length in H.
  destruct (sort_desc snd (enumerate row)); simpl in *; lia.
Qed.

(** C10: for a movie of the catalog, [content_based(movieId, n)] returns
    exactly [min(n, |catalog| - 1)] rows. *)
Theorem content_based_length
    (sw : list string) (movies : list Movie) (ratings : list Rating)
    (self : RecommendationEngine) (movie_id : Z) (n : nat) :
  __init__ sw movies ratings = Ok self ->
  In movie_id (map movieId movies) ->
  length (content_based_recommendations self movie_id n)
  = Nat.min n (length movies - 1).
Proof.
  intros Hinit Hin. apply init_inv in Hinit as [_ ->].
  destruct (content_based_built sw movies ratings movie_id movie_A Hin)
    as (i & row & _ & _ & Hlen & _ & Hcb).
  now rewrite Hcb, length_firstn, content_ranking_length, Hlen.
Qed.

Lemma sample_vocabulary_AB :
  vocabulary (catalog_docs sample_stop_words [movie_A; movie_B]) <> [].
Proof. vm_compute. discriminate. Qed.

Lemma content_based_length_witness :
  length (content_based_recommendations
            (built sample_stop_words [movie_A; movie_B] []) 2 5) = 1%nat.
Proof.
  apply (content_based_length sample_stop_words [movie_A; movie_B] [] _ 2%Z 5%nat).
  - apply init_ok, sample_vocabulary_AB.
  - simpl. auto.
Defined.

(** C3: for a movie id that the catalog does not have,
    [content_based(movieId, n)] is the very list [popular(n)] returns. *)
Theorem content_based_unknown_is_popular
    (self : RecommendationEngine) (movie_id : Z) (n : nat) :
  ~ In movie_id (map movieId (movies_df self)) ->
  content_based_recommendations self movie_id n = _get_popular_movies self n.
Proof. apply content_based_absent. Qed.

Lemma content_based_unknown_is_popular_witness :
  content_based_recommendations
    (built sample_stop_words [movie_A; movie_B] []) 9999999 5
  = _get_popular_movies (built sample_stop_words [movie_A; movie_B] []) 5.
Proof.
  apply content_based_unknown_is_popular.
  simpl. intros [H|[H|[]]]; discriminate.
Defined.

Lemma Rltb_irrefl (x : R) : Rltb x x = false.
Proof. apply Rltb_false_iff. lra. Qed.

(** Two movies with the same genre text have the same unit row. *)
Lemma unit_rows_AB :
  let docs := catalog_docs sample_stop_words [movie_A; movie_B] in
  let u := normalize (tfidf_row docs ["drama"%string]) in
  unit_rows sample_stop_words [movie_A; movie_B] = [u; u].
Proof. reflexivity. Qed.

(** C1 fails on the code: in the catalog of [movie_A] and [movie_B], which
    share the genre text, the row of [movie_B] holds two equal scores; the
    stable sort keeps [movie_A] first, the slice drops it, and
    [content_based(2, 1)] returns [movie_B], the queried movie itself. *)
Theorem content_based_returns_queried_movie :
  exists self,
    __init__ sample_stop_words [movie_A; movie_B] [] = Ok self
    /\ map rec_movie (content_based_recommendations self 2 1) = [movie_B].
Proof.
  exists (built sample_stop_words [movie_A; movie_B] []).
  split; [apply init_ok, sample_vocabulary_AB|].
  pose proof unit_rows_AB as Hu. cbv zeta in Hu.
  set (u := normalize _) in Hu.
  rewrite (content_based_found _ 2 1 1 [dot u u; dot u u] movie_A).
  - unfold content_ranking. generalize (dot u u). intros a.
    unfold sort_desc, enumerate. cbn -[Rltb].
    rewrite Rltb_irrefl. reflexivity.
  - reflexivity.
  - rewrite built_matrix, Hu. reflexivity.
  - simpl. lia.
Qed.

(** ** Construction-time checks *)

Lemma vocabulary_nonempty (sw : list string) (movies : list Movie) :
  vocabulary (catalog_docs sw movies) <> [] <->
  exists m, In m movies /\ genre_tokens sw m <> [].
Proof.
  rewrite catalog_docs_tokens. unfold vocabulary. split.
  - intros H.
    destruct (nodup string_dec (concat (map (genre_tokens sw) movies)))
      as [|t l] eqn:E; [contradiction|].
    assert (Ht : In t (concat (map (genre_tokens sw) movies))).
    { apply (nodup_In string_dec). rewrite E. now left. }
    apply in_concat in Ht as (doc & Hdoc & Ht).
    apply in_map_iff in Hdoc as (m & <- & Hm).
    exists m. split; [exact Hm|]. intros C. now rewrite C in Ht.
  - intros (m & Hm & Hne) C.
    destruct (genre_tokens sw m) as [|t doc] eqn:E; [contradiction|].
    assert (Ht : In t (nodup string_dec (concat (map (genre_tokens sw) movies)))).
    { apply nodup_In, in_concat. exists (t :: doc).
      split; [rewrite <- E; now apply in_map|now left]. }
    now rewrite C in Ht.
Qed.

Lemma vocabulary_empty (sw : list string) (movies : list Movie) :
  vocabulary (catalog_docs sw movies) = [] <->
  forall m, In m movies -> genre_tokens sw m = [].
Proof.
  split.
  - intros H m Hm. destruct (genre_tokens sw m) eqn:E; [reflexivity|].
    exfalso. apply (proj2 (vocabulary_nonempty sw movies)); [|exact H].
    exists m. split; [exact Hm|]. rewrite E. discriminate.
  - intros H. destruct (vocabulary (catalog_docs sw movies)) eqn:E; [reflexivity|].
    assert (Hne : vocabulary (catalog_docs sw movies) <> [])
      by (rewrite E; discriminate).
    apply vocabulary_nonempty in Hne as (m & Hm & Hne).
    now rewrite (H m Hm) in Hne.
Qed.

(** C2, as the code has it: construction checks neither the uniqueness
    of the catalog ids nor the ratings.  It yields the engine exactly when
    some movie's genre text gives a token, whatever the ids and the
    ratings are, and raises the vectorizer's [ValueError] exactly when no
    genre text gives one. *)
Theorem construction_depends_on_vocabulary_only
    (sw : list string) (movies : list Movie) (ratings : list Rating) :
  (__init__ sw movies ratings = Ok (built sw movies ratings) <->
   exists m, In m movies /\ genre_tokens sw m <> [])
  /\ (__init__ sw movies ratings = Raise ValueError <->
      forall m, In m movies -> genre_tokens sw m = []).
Proof.
  split; split.
  - intros H. apply vocabulary_nonempty. now apply init_inv in H.
  - intros H. apply init_ok. now apply vocabulary_nonempty.
  - intros H. apply vocabulary_empty.
    destruct (vocabulary (catalog_docs sw movies)) eqn:E; [reflexivity|].
    rewrite init_ok in H by (rewrite E; discriminate). discriminate.
  - intros H. apply init_raise. now apply vocabulary_empty.
Qed.

(** C2 as stated fails: a catalog with a repeated id gives an engine,
    with ratings of its movies and also with ratings that the filter
    against the catalog leaves without a row. *)
Lemma construction_accepts_duplicates_and_no_ratings :
  let movies := [movie_A; movie_A'] in
  ~ NoDup (map movieId movies)
  /\ preprocess_ratings movies [orphan_rating] = []
  /\ (exists self,
        __init__ sample_stop_words movies [rating_5 7 1] = Ok self)
  /\ (exists self,
        __init__ sample_stop_words movies
          (preprocess_ratings movies [orphan_rating]) = Ok self).
Proof.
  cbv zeta. split; [|split; [|split]].
  - simpl. intros H. inversion H as [|x l Hx _]. apply Hx. now left.
  - reflexivity.
  - eexists. apply init_ok. vm_compute. discriminate.
  - eexists. apply init_ok. vm_compute. discriminate.
Qed.

(** ** The popularity fallback *)

Lemma sort_unique_in (l : list Z) (x : Z) : In x (sort_unique l) <-> In x l.
Proof.
  unfold sort_unique. rewrite stable_sort_in. apply nodup_In.
Qed.

Lemma sort_unique_NoDup (l : list Z) : NoDup (sort_unique l).
Proof.
  unfold sort_unique.
  eapply Permutation_NoDup; [apply stable_sort_perm|apply NoDup_nodup].
Qed.

Lemma groupby_movie_ids (ratings : list Rating) :
  map stat_movieId (groupby_movie ratings) = sort_unique (map rated_movieId ratings).
Proof. unfold groupby_movie. rewrite map_map. simpl. apply map_id. Qed.

Lemma groupby_movie_in (ratings : list Rating) (g : MovieStats) :
  In g (groupby_movie ratings) ->
  stat_mean g = mean_rating ratings (stat_movieId g)
  /\ stat_count g = rating_count ratings (stat_movieId g).
Proof.
  unfold groupby_movie. intros H. apply in_map_iff in H as (m & <- & _).
  now split.
Qed.

Lemma merge_in (stats : list MovieStats) (movies : list Movie)
    (g : MovieStats) (m : Movie) :
  In (g, m) (merge stats movies) <->
  In g stats /\ In m movies /\ movieId m = stat_movieId g.
Proof.
  unfold merge. rewrite in_flat_map. split.
  - intros (g' & Hg & H). apply in_map_iff in H as (m' & [= -> ->] & Hm).
    apply filter_In in Hm as [Hm E]. apply Z.eqb_eq in E. auto.
  - intros (Hg & Hm & E). exists g. split; [exact Hg|].
    apply in_map, filter_In. split; [exact Hm|now apply Z.eqb_eq].
Qed.


(** The rows of the ranking: catalog movies over the threshold, scored by
    their mean rating over five. *)
Lemma popular_ranking_in (self : RecommendationEngine) (r : Recommendation) :
  In r (popular_ranking self) ->
  In (rec_movie r) (movies_df self)
  /\ (10 <= rating_count (ratings_df self) (rec_id r))%nat
  /\ similarity_score r = mean_rating (ratings_df self) (rec_id r) / 5.
Proof.
  unfold popular_ranking. intros H.
  apply in_map_iff in H as ([g m] & <- & H).
  apply sort_desc_in, merge_in in H as (Hg & Hm & E).
  apply filter_In in Hg as [Hg Hc]. apply Nat.leb_le in Hc.
  apply groupby_movie_in in Hg as [Hmean Hcount].
  unfold rec_id. simpl. rewrite E. split; [exact Hm|].
  split; [now rewrite <- Hcount|now rewrite <- Hmean].
Qed.



Lemma NoDup_map_filter {X Y : Type} (label : X -> Y) (keep : X -> bool)
    (rows : list X) (Hnd : NoDup (map label rows)) :
  NoDup (map label (filter keep rows)).
Proof.
  induction rows as [|x rows IH]; simpl in *; [constructor|].
  apply NoDup_cons_iff in Hnd as [Hx Hnd].
  destruct (keep x); simpl; [|now apply IH].
  constructor; [|now apply IH].
  intros C. apply Hx. apply in_map_iff in C as (y & E & Hy).
  apply filter_In in Hy as [Hy _]. rewrite <- E. now apply in_map.
Qed.



Lemma descending_map {A B : Type} (key : A -> R) (key' : B -> R) (f : A -> B)
    (l : list A) :
  (forall a b, In a l -> In b l -> key b <= key a -> key' (f b) <= key' (f a)) ->
  descending key l -> descending key' (map f l).
Proof.
  intros Hmono H. induction H as [|x l Hl IH Hx]; simpl; constructor.
  - apply IH. intros a b Ha Hb. apply Hmono; now right.
  - apply Forall_map, Forall_forall. intros b Hb.
    apply Hmono; [now left|now right|].
    exact (proj1 (Forall_forall _ _) Hx b Hb).
Qed.

Lemma descending_firstn {A : Type} (key : A -> R) (n : nat) (l : list A) :
  descending key l -> descending key (firstn n l).
Proof.
  intros H. revert n. induction H as [|x l Hl IH Hx]; intros [|n]; simpl;
    try constructor.
  - apply IH.
  - apply Forall_forall. intros b Hb. apply in_firstn in Hb.
    exact (proj1 (Forall_forall _ _) Hx b Hb).
Qed.

Lemma descending_tl {A : Type} (key : A -> R) (l : list A) :
  descending key l -> descending key (tl l).
Proof. intros H. destruct H; simpl; [constructor|assumption]. Qed.

Lemma popular_ranking_sorted (self : RecommendationEngine) :
  descending similarity_score (popular_ranking self)
  /\ descending (fun r => mean_rating (ratings_df self) (rec_id r))
                (popular_ranking self).
Proof.
  unfold popular_ranking. split.
  - apply descending_map with (key := fun p => stat_mean (fst p));
      [|apply sort_desc_descending].
    intros a b _ _ H. simpl. lra.
  - apply descending_map with (key := fun p => stat_mean (fst p));
      [|apply sort_desc_descending].
    assert (Hkey : forall p,
               In p (sort_desc (fun p => stat_mean (fst p))
                       (merge (filter (fun g => (10 <=? stat_count g)%nat)
                                      (groupby_movie (ratings_df self)))
                              (movies_df self))) ->
               mean_rating (ratings_df self) (movieId (snd p)) = stat_mean (fst p)).
    { intros [g m] Hp. apply sort_desc_in, merge_in in Hp as (Hg & _ & E).
      apply filter_In in Hg as [Hg _].
      apply groupby_movie_in in Hg as [Hmean _]. simpl. now rewrite E. }
    intros a b Ha Hb H. unfold rec_id. simpl.
    now rewrite (Hkey a Ha), (Hkey b Hb).
Qed.


(** ** Recommendations for a user *)

Lemma mean_single (x : R) : mean [x] = x.
Proof. unfold mean. simpl. field. Qed.

Lemma sum_R_lt (c : R) (l : list R) :
  l <> [] -> Forall (fun x => x < c) l -> sum_R l < c * INR (length l).
Proof.
  intros Hne H. induction H as [|x l Hx Hl IH]; [contradiction|].
  change (sum_R (x :: l)) with (x + sum_R l).
  change (length (x :: l)) with (S (length l)). rewrite S_INR.
  destruct l as [|y l'].
  - simpl. lra.
  - assert (IH' : sum_R (y :: l') < c * INR (length (y :: l')))
      by (apply IH; discriminate).
    lra.
Qed.

Lemma mean_lt (c : R) (l : list R) :
  l <> [] -> Forall (fun x => x < c) l -> mean l < c.
Proof.
  intros Hne H. unfold mean.
  assert (Hlen : 0 < INR (length l)).
  { apply lt_0_INR. destruct l; [contradiction|simpl; lia]. }
  apply Rmult_lt_reg_r with (INR (length l)); [exact Hlen|].
  unfold Rdiv. rewrite Rmult_assoc, Rinv_l by lra.
  rewrite Rmult_1_r. now apply sum_R_lt.
Qed.

Lemma filter_combine_map {A B : Type} (f : A -> B) (g : B -> bool) (l : list A) :
  map fst (filter (fun p => g (snd p)) (combine l (map f l)))
  = filter (fun x => g (f x)) l.
Proof.
  induction l as [|x l IH]; simpl; [reflexivity|].
  destruct (g (f x)); simpl; now rewrite IH.
Qed.

(** The rating rows of one user for one movie. *)
Lemma filter_unique_key (ratings : list Rating) (u m : Z) :
  one_rating_per_pair ratings ->
  (length (filter (fun r => (userId r =? u)%Z && (rated_movieId r =? m)%Z) ratings)
   <= 1)%nat.
Proof.
  unfold one_rating_per_pair.
  induction ratings as [|r l IH]; simpl; intros Hnd; [lia|].
  apply NoDup_cons_iff in Hnd as [Hr Hnd]. specialize (IH Hnd).
  destruct ((userId r =? u)%Z && (rated_movieId r =? m)%Z) eqn:E; [|exact IH].
  apply andb_true_iff in E as [Eu Em]. apply Z.eqb_eq in Eu, Em. subst u m.
  destruct (filter _ l) as [|r' l'] eqn:F; [simpl; lia|].
  exfalso. apply Hr.
  assert (Hr' : In r' (filter (fun r0 => (userId r0 =? userId r)%Z
                                          && (rated_movieId r0 =? rated_movieId r)%Z) l))
    by (rewrite F; now left).
  apply filter_In in Hr' as [Hin E]. apply andb_true_iff in E as [Eu Em].
  apply Z.eqb_eq in Eu, Em. apply in_map_iff. exists r'.
  split; [now rewrite Eu, Em|exact Hin].
Qed.

Lemma existsb_filter {A : Type} (p q : A -> bool) (l : list A) :
  existsb (fun x => p x && q x) l = existsb q (filter p l).
Proof.
  induction l as [|x l IH]; simpl; [reflexivity|].
  destruct (p x); simpl; now rewrite IH.
Qed.

(** With one rating per pair, a cell is at 4.0 or more exactly when the
    user gave the movie such a rating. *)
Lemma pivot_cell_high (ratings : list Rating) (u m : Z) :
  one_rating_per_pair ratings ->
  Rleb 4 (pivot_cell ratings u m)
  = existsb (fun r => (userId r =? u)%Z && (rated_movieId r =? m)%Z
                      && Rleb 4 (rating r)) ratings.
Proof.
  intros Hnd. pose proof (filter_unique_key ratings u m Hnd) as Hlen.
  rewrite existsb_filter. unfold pivot_cell.
  destruct (filter _ ratings) as [|r [|r' l]]; simpl in *.
  - apply Rleb_false_iff. lra.
  - rewrite mean_single. now rewrite orb_false_r.
  - lia.
Qed.

(** Without a rating at 4.0 or more the cell stays below 4.0. *)
Lemma pivot_cell_low (ratings : list Rating) (u m : Z) :
  (forall r, In r ratings -> userId r = u -> rating r < 4) ->
  Rleb 4 (pivot_cell ratings u m) = false.
Proof.
  intros H. apply Rleb_false_iff. unfold pivot_cell.
  destruct (filter _ ratings) as [|r l] eqn:F; [lra|].
  apply mean_lt; [discriminate|].
  apply Forall_map, Forall_forall. intros r' Hr'. rewrite <- F in Hr'.
  apply filter_In in Hr' as [Hin E]. apply andb_true_iff in E as [Eu _].
  apply Z.eqb_eq in Eu. now apply H.
Qed.

(** The row of a known user, and what [get_user_recommendations] reads
    off it. *)
Lemma user_recommendations_known (sw : list string) (movies : list Movie)
    (ratings : list Rating) (u : Z) (n : nat) :
  In u (map userId ratings) ->
  let self := built sw movies ratings in
  get_user_recommendations self u n =
  match filter (fun m => Rleb 4 (pivot_cell ratings u m))
               (sort_unique (map rated_movieId ratings)) with
  | [] => _get_popular_movies self n
  | high => collaborative_filtering_recommendations self high n
  end.
Proof.
  intros Hu self. unfold get_user_recommendations.
  change (user_item_matrix self) with (pivot_table ratings).
  unfold pivot_table. cbn [index columns values].
  assert (Hex : exists i, find_index (Z.eqb u) (sort_unique (map userId ratings)) = Some i).
  { apply (find_index_exists _ _ u); [now apply sort_unique_in|apply Z.eqb_refl]. }
  destruct Hex as [i Hi]. rewrite Hi.
  destruct (find_index_some _ _ _ Hi) as (u' & Hnth & E).
  apply Z.eqb_eq in E. subst u'.
  assert (Hlt : (i < length (sort_unique (map userId ratings)))%nat)
    by (apply nth_error_Some; congruence).
  rewrite nth_map_in with (d := u) by exact Hlt.
  rewrite (nth_error_nth _ _ u Hnth).
  rewrite (filter_combine_map (fun m => pivot_cell ratings u m) (Rleb 4)).
  destruct (filter _ _); reflexivity.
Qed.

Lemma user_recommendations_unknown (self : RecommendationEngine) (u : Z) (n : nat) :
  ~ In u (index (user_item_matrix self)) ->
  get_user_recommendations self u n = _get_popular_movies self n.
Proof.
  intros H. unfold get_user_recommendations.
  rewrite find_index_none; [reflexivity|].
  intros x Hx. apply Z.eqb_neq. intros E. apply H. now rewrite E.
Qed.

(** C6, as the code has it: [for_user] returns [popular(n)] for a user
    without ratings and for a user whose ratings are all below 4.0.  When
    the ratings hold at most one row per user and movie, it returns, for a
    user with a rating of 4.0 or more, [collaborative] seeded with the
    movies that user rated 4.0 or more.  The restriction is needed: the
    matrix cell of a movie rated twice is the mean of the two ratings. *)
Theorem user_recommendations_cases
    (sw : list string) (movies : list Movie) (ratings : list Rating)
    (self : RecommendationEngine) (u : Z) (n : nat) :
  __init__ sw movies ratings = Ok self ->
  (~ In u (map userId ratings) ->
   get_user_recommendations self u n = _get_popular_movies self n)
  /\ (In u (map userId ratings) ->
      (forall r, In r ratings -> userId r = u -> rating r < 4) ->
      get_user_recommendations self u n = _get_popular_movies self n)
  /\ (one_rating_per_pair ratings ->
      (exists r, In r ratings /\ userId r = u /\ 4 <= rating r) ->
      rated_high ratings u <> []
      /\ get_user_recommendations self u n =
         collaborative_filtering_recommendations self (rated_high ratings u) n).
Proof.
  intros Hinit. apply init_inv in Hinit as [_ ->].
  split; [|split].
  - intros Hu. apply user_recommendations_unknown.
    simpl. now rewrite sort_unique_in.
  - intros Hu Hlow. rewrite user_recommendations_known by exact Hu.
    rewrite (filter_ext _ (fun _ => false)); [|intros m; now apply pivot_cell_low].
    now rewrite filter_false.
  - intros Hnd (r & Hr & Eu & Hhigh).
    assert (Hu : In u (map userId ratings)) by (rewrite <- Eu; now apply in_map).
    rewrite user_recommendations_known by exact Hu.
    rewrite (filter_ext _ _ (fun m => pivot_cell_high ratings u m Hnd)).
    fold (rated_high ratings u).
    assert (Hin : In (rated_movieId r) (rated_high ratings u)).
    { apply filter_In. split; [apply sort_unique_in; now apply in_map|].
      apply existsb_exists. exists r. split; [exact Hr|].
      rewrite Eu, !Z.eqb_refl. simpl. now apply Rleb_true_iff. }
    destruct (rated_high ratings u); [contradiction|].
    split; [discriminate|reflexivity].
Qed.

Lemma user_recommendations_cases_witness :
  rated_high [rating_5 7 1; rating_5 7 2] 7 <> []
  /\ get_user_recommendations
       (built sample_stop_words [movie_A; movie_B] [rating_5 7 1; rating_5 7 2]) 7 3
     = collaborative_filtering_recommendations
         (built sample_stop_words [movie_A; movie_B] [rating_5 7 1; rating_5 7 2])
         (rated_high [rating_5 7 1; rating_5 7 2] 7) 3.
Proof.
  destruct (user_recommendations_cases sample_stop_words [movie_A; movie_B]
              [rating_5 7 1; rating_5 7 2] _ 7%Z 3%nat
              (init_ok _ _ _ sample_vocabulary_AB)) as (_ & _ & H).
  apply H.
  - unfold one_rating_per_pair. simpl.
    constructor; [intros [C|[]]; discriminate|].
    constructor; [intros []|constructor].
  - exists (rating_5 7 1). simpl. repeat split; auto. lra.
Defined.

Lemma twice_rated_high : rated_high twice_rated 7 = [1%Z].
Proof.
  unfold rated_high.
  change (sort_unique (map rated_movieId twice_rated)) with [1; 2]%Z.
  unfold twice_rated. cbn -[Rleb].
  rewrite (proj2 (Rleb_true_iff 4 5)) by lra.
  rewrite (proj2 (Rleb_false_iff 4 2)) by lra. reflexivity.
Qed.

Lemma twice_rated_cells :
  pivot_cell twice_rated 7 1 = 3 /\ pivot_cell twice_rated 7 2 = 2.
Proof. unfold pivot_cell, twice_rated, mean. simpl. split; field. Qed.

Lemma twice_rated_for_user :
  get_user_recommendations
    (built sample_stop_words [movie_A; movie_B] twice_rated) 7 1 = [].
Proof.
  rewrite user_recommendations_known by (simpl; auto).
  change (sort_unique (map rated_movieId twice_rated)) with [1; 2]%Z.
  cbn [filter]. destruct twice_rated_cells as [-> ->].
  rewrite !(proj2 (Rleb_false_iff 4 _)) by lra.
  reflexivity.
Qed.

Lemma twice_rated_collaborative :
  collaborative_filtering_recommendations
    (built sample_stop_words [movie_A; movie_B] twice_rated) [1%Z] 1 <> [].
Proof.
  set (self := built sample_stop_words [movie_A; movie_B] twice_rated).
  assert (H : exists r, pooled self 1 [1%Z] = Ok [r]).
  { unfold pooled, similar_movies.
    change (user_item_matrix self) with (pivot_table twice_rated).
    change (columns (pivot_table twice_rated)) with [1; 2]%Z.
    change (find_index (Z.eqb 1) [1; 2]%Z) with (Some 0%nat).
    change (knn_model self) with (Some (transpose (pivot_table twice_rated))).
    unfold kneighbors.
    change (length (transpose (pivot_table twice_rated))) with 2%nat.
    cbn [Nat.min Nat.add length Nat.eqb Nat.ltb Nat.leb orb bind].
    change (transpose (pivot_table twice_rated)) with
      [column (pivot_table twice_rated) 0; column (pivot_table twice_rated) 1].
    unfold cosine_distances. cbn [map].
    set (d0 := clip 0 2 _). set (d1 := clip 0 2 _).
    unfold sort_asc, enumerate. cbn -[Rltb].
    destruct (Rltb d1 d0); cbn; eexists; reflexivity. }
  destruct H as [r H]. unfold collaborative_filtering_recommendations.
  rewrite H. discriminate.
Qed.

(** C6 as stated fails: user 7 rated movie 1 at 5.0 and at 1.0, so the
    cell of the matrix is their mean 3.0 and no movie counts as rated
    high; [for_user] returns the (empty) popularity fallback, while
    [collaborative] seeded with the movie that user rated 5.0 returns a
    row. *)
Lemma user_recommendations_mean_counterexample :
  exists self,
    __init__ sample_stop_words [movie_A; movie_B] twice_rated = Ok self
    /\ ratings_in_range twice_rated
    /\ (exists r, In r twice_rated /\ userId r = 7%Z /\ 4 <= rating r)
    /\ get_user_recommendations self 7 1 = []
    /\ collaborative_filtering_recommendations self (rated_high twice_rated 7) 1
       <> [].
Proof.
  exists (built sample_stop_words [movie_A; movie_B] twice_rated).
  split; [apply init_ok, sample_vocabulary_AB|].
  split; [unfold ratings_in_range, twice_rated; repeat apply Forall_cons;
          [simpl; lra..|apply Forall_nil]|].
  split.
  - eexists. split; [left; reflexivity|]. simpl. split; [reflexivity|lra].
  - rewrite twice_rated_high.
    split; [apply twice_rated_for_user|apply twice_rated_collaborative].
Qed.

(** ** The score dictionary *)

Lemma dict_get_absent (d : scores) (k : Z) (dflt : R) :
  ~ In k (map fst d) -> dict_get d k dflt = dflt.
Proof.
  induction d as [|[k' v] d IH]; simpl; intros H; [reflexivity|].
  destruct (Z.eqb_spec k k') as [->|_]; [exfalso; auto|].
  apply IH. auto.
Qed.

Lemma dict_set_absent (d : scores) (k : Z) (v : R) :
  ~ In k (map fst d) -> dict_set d k v = d ++ [(k, v)].
Proof.
  induction d as [|[k' v'] d IH]; simpl; intros H; [reflexivity|].
  destruct (Z.eqb_spec k k') as [->|_]; [exfalso; auto|].
  f_equal. apply IH. auto.
Qed.

Lemma dict_get_present (d : scores) (k : Z) (v dflt : R) :
  NoDup (map fst d) -> In (k, v) d -> dict_get d k dflt = v.
Proof.
  induction d as [|[k' v'] d IH]; simpl; intros Hnd Hin; [contradiction|].
  apply NoDup_cons_iff in Hnd as [Hk Hnd].
  destruct Hin as [[= -> ->]|Hin]; [now rewrite Z.eqb_refl|].
  destruct (Z.eqb_spec k k') as [->|_]; [|now apply IH].
  exfalso. apply Hk. apply in_map_iff. now exists (k', v).
Qed.

(** Rows with fresh, distinct ids are appended in their order. *)
Lemma accumulate_fresh (w : R) (recs : list Recommendation) (d : scores) :
  NoDup (map rec_id recs) ->
  (forall r, In r recs -> ~ In (rec_id r) (map fst d)) ->
  accumulate w recs d
  = d ++ map (fun r => (rec_id r, 0 + w * similarity_score r)) recs.
Proof.
  unfold accumulate. revert d.
  induction recs as [|r recs IH]; intros d Hnd Hfresh; simpl.
  - now rewrite app_nil_r.
  - simpl in Hnd. apply NoDup_cons_iff in Hnd as [Hr Hnd].
    rewrite dict_get_absent, dict_set_absent by (apply Hfresh; now left).
    rewrite IH; [now rewrite <- app_assoc|exact Hnd|].
    intros r' Hr'. rewrite map_app, in_app_iff. simpl.
    intros [C|[C|[]]].
    + apply (Hfresh r'); [now right|exact C].
    + apply Hr. rewrite C. now apply in_map.
Qed.

(** ** Ids of the returned rows *)


Lemma NoDup_firstn {A : Type} (n : nat) (l : list A) :
  NoDup l -> NoDup (firstn n l).
Proof.
  intros H. revert n. induction H as [|x l Hx Hl IH]; intros [|n]; simpl;
    try constructor; [|apply IH].
  intros C. apply Hx. now apply in_firstn in C.
Qed.

Lemma merge_ids_NoDup (stats : list MovieStats) (movies : list Movie) :
  NoDup (map stat_movieId stats) -> NoDup (map movieId movies) ->
  NoDup (map (fun p => movieId (snd p)) (merge stats movies)).
Proof.
  intros Hs Hm. induction stats as [|g stats IH]; [constructor|].
  simpl in Hs. apply NoDup_cons_iff in Hs as [Hg Hs].
  unfold merge in *. simpl. rewrite map_app, map_map. simpl.
  apply NoDup_app.
  - now apply NoDup_map_filter.
  - now apply IH.
  - intros k Hk C. apply in_map_iff in Hk as (m & <- & Hin).
    apply filter_In in Hin as [_ E]. apply Z.eqb_eq in E.
    apply in_map_iff in C as ([g' m'] & E' & Hin'). simpl in E'.
    apply merge_in in Hin' as (Hg' & _ & Eg').
    apply Hg. rewrite <- E, <- E', Eg'. now apply in_map.
Qed.

(** With distinct catalog ids the ranking lists each id once. *)
Lemma popular_ranking_NoDup (self : RecommendationEngine) :
  NoDup (map movieId (movies_df self)) ->
  NoDup (map rec_id (popular_ranking self)).
Proof.
  intros Hm. unfold popular_ranking. rewrite map_map. unfold rec_id. simpl.
  eapply Permutation_NoDup.
  - apply Permutation_map, sort_desc_perm.
  - apply merge_ids_NoDup; [|exact Hm].
    apply NoDup_map_filter. rewrite groupby_movie_ids. apply sort_unique_NoDup.
Qed.


(** ** Hybrid recommendations without seeds *)








(** ** Score ranges *)

Lemma sum_R_bounds (a b : R) (l : list R) :
  Forall (fun x => a <= x <= b) l ->
  a * INR (length l) <= sum_R l <= b * INR (length l).
Proof.
  induction 1 as [|x l Hx Hl IH].
  - simpl. lra.
  - change (sum_R (x :: l)) with (x + sum_R l).
    change (length (x :: l)) with (S (length l)). rewrite S_INR. lra.
Qed.

Lemma mean_bounds (a b : R) (l : list R) :
  l <> [] -> Forall (fun x => a <= x <= b) l -> a <= mean l <= b.
Proof.
  intros Hne H. unfold mean.
  assert (Hlen : 0 < INR (length l)).
  { apply lt_0_INR. destruct l; [contradiction|simpl; lia]. }
  pose proof (sum_R_bounds a b l H) as [Hlo Hhi].
  split.
  - apply Rmult_le_reg_r with (INR (length l)); [exact Hlen|].
    unfold Rdiv. rewrite Rmult_assoc, Rinv_l by lra. lra.
  - apply Rmult_le_reg_r with (INR (length l)); [exact Hlen|].
    unfold Rdiv. rewrite Rmult_assoc, Rinv_l by lra. lra.
Qed.

Lemma mean_rating_range (ratings : list Rating) (m : Z) :
  ratings_in_range ratings -> (0 < rating_count ratings m)%nat ->
  0 <= mean_rating ratings m <= 5.
Proof.
  intros Hr Hc. unfold mean_rating, rating_count in *.
  apply mean_bounds.
  - destruct (ratings_of ratings m); [simpl in Hc; lia|discriminate].
  - apply Forall_map, Forall_forall. intros r Hin.
    apply filter_In in Hin as [Hin _].
    exact (proj1 (Forall_forall _ _) Hr r Hin).
Qed.

Lemma popular_ranking_sound (self : RecommendationEngine) (r : Recommendation) :
  ratings_in_range (ratings_df self) ->
  In r (popular_ranking self) -> sound_row self r.
Proof.
  intros Hr Hin. apply popular_ranking_in in Hin as (Hm & Hc & Hs).
  split; [exact Hm|]. rewrite Hs.
  pose proof (mean_rating_range _ (rec_id r) Hr ltac:(lia)). lra.
Qed.

Lemma pivot_cell_nonneg (ratings : list Rating) (u m : Z) :
  ratings_in_range ratings -> 0 <= pivot_cell ratings u m.
Proof.
  intros Hr. unfold pivot_cell.
  destruct (filter _ ratings) as [|r l] eqn:F; [lra|].
  apply (mean_bounds 0 5); [discriminate|].
  apply Forall_map, Forall_forall. intros r' Hin. rewrite <- F in Hin.
  apply filter_In in Hin as [Hin _].
  exact (proj1 (Forall_forall _ _) Hr r' Hin).
Qed.

Lemma pivot_column_nonneg (ratings : list Rating) (j : nat) :
  ratings_in_range ratings -> nonneg_vec (column (pivot_table ratings) j).
Proof.
  intros Hr. unfold column, pivot_table, nonneg_vec. simpl.
  rewrite map_map. apply Forall_map, Forall_forall. intros u _.
  destruct (Nat.lt_ge_cases j (length (sort_unique (map rated_movieId ratings))))
    as [Hj|Hj].
  - rewrite nth_map_in with (d := 0%Z) by exact Hj. now apply pivot_cell_nonneg.
  - rewrite nth_overflow by now rewrite length_map. lra.
Qed.

(** A cosine distance of vectors without negative entries turns back
    into a similarity in [[0,1]]. *)
Lemma similarity_of_distance (q y : list R) :
  nonneg_vec q -> nonneg_vec y ->
  0 <= 1 - clip 0 2 (1 - dot (normalize q) (normalize y)) <= 1.
Proof.
  intros Hq Hy. pose proof (cosine_range q y Hq Hy) as [Hlo Hhi].
  unfold clip, Rmax, Rmin.
  destruct (Rle_dec 2 _); destruct (Rle_dec 0 _); lra.
Qed.

(** ** Rows of collaborative filtering *)

Lemma movie_info_in (self : RecommendationEngine) (k : Z) (m : Movie) :
  movie_info self k = Some m -> In m (movies_df self) /\ movieId m = k.
Proof.
  unfold movie_info. intros H. apply find_some in H as [Hin E].
  apply Z.eqb_eq in E. now split.
Qed.

Lemma built_knn_model (sw : list string) (movies : list Movie)
    (ratings : list Rating) (fit_X : list (list R)) :
  knn_model (built sw movies ratings) = Some fit_X ->
  fit_X = transpose (pivot_table ratings).
Proof.
  simpl. unfold _prepare_collaborative_model.
  destruct (0 <? length _)%nat; congruence.
Qed.

Lemma similar_movies_sound (sw : list string) (movies : list Movie)
    (ratings : list Rating) (n : nat) (movie_id : Z) (rows : list Recommendation) :
  ratings_in_range ratings ->
  similar_movies (built sw movies ratings) n movie_id = Ok rows ->
  Forall (sound_row (built sw movies ratings)) rows.
Proof.
  intros Hr. set (self := built sw movies ratings).
  unfold similar_movies.
  change (user_item_matrix self) with (pivot_table ratings).
  destruct (find_index _ _) as [idx|]; [|intros [= <-]; constructor].
  unfold kneighbors.
  destruct (knn_model self) as [fit_X|] eqn:Hknn; [|discriminate].
  apply built_knn_model in Hknn. subst fit_X.
  destruct (_ || _)%bool; [discriminate|]. simpl. intros [= <-].
  apply Forall_forall. intros r Hin.
  apply in_flat_map in Hin as ([j dist] & Hp & Hin).
  apply in_tl, in_firstn in Hp. unfold sort_asc in Hp.
  apply stable_sort_in in Hp.
  apply (in_map snd) in Hp. rewrite enumerate_snd in Hp. simpl in Hp.
  unfold cosine_distances in Hp. apply in_map_iff in Hp as (y & <- & Hy).
  unfold transpose in Hy. apply in_map_iff in Hy as (c & <- & _).
  simpl in Hin.
  destruct (movie_info self _) as [m|] eqn:Hinfo; [|contradiction].
  destruct Hin as [<-|[]]. split; simpl.
  - now apply movie_info_in in Hinfo.
  - apply similarity_of_distance; now apply pivot_column_nonneg.
Qed.

Lemma pooled_sound (sw : list string) (movies : list Movie)
    (ratings : list Rating) (n : nat) (movie_ids : list Z)
    (rows : list Recommendation) :
  ratings_in_range ratings ->
  pooled (built sw movies ratings) n movie_ids = Ok rows ->
  Forall (sound_row (built sw movies ratings)) rows.
Proof.
  intros Hr. revert rows.
  induction movie_ids as [|k ids IH]; simpl; intros rows.
  - intros [= <-]. constructor.
  - destruct (similar_movies _ n k) as [first|] eqn:E1; [|discriminate]. simpl.
    destruct (pooled _ n ids) as [more|]; [|discriminate]. simpl.
    intros [= <-]. apply Forall_app. split.
    + now apply (similar_movies_sound sw movies ratings n k).
    + now apply IH.
Qed.

Lemma drop_duplicates_in (l : list Recommendation) (r : Recommendation) :
  In r (drop_duplicates l) -> In r l.
Proof.
  induction l as [|x l IH]; simpl; [auto|].
  intros [->|H]; [now left|]. right. apply IH.
  now apply filter_In in H.
Qed.

Lemma drop_duplicates_NoDup (l : list Recommendation) :
  NoDup (map rec_id (drop_duplicates l)).
Proof.
  induction l as [|x l IH]; simpl; constructor.
  - intros C. apply in_map_iff in C as (y & E & Hy).
    apply filter_In in Hy as [_ N]. rewrite E, Z.eqb_refl in N. discriminate.
  - now apply NoDup_map_filter.
Qed.

(** Every row [collaborative] returns is a catalog movie with a score in
    [[0,1]]; with distinct catalog ids no id is returned twice. *)
Lemma collaborative_sound (sw : list string) (movies : list Movie)
    (ratings : list Rating) (movie_ids : list Z) (n : nat) :
  ratings_in_range ratings ->
  let self := built sw movies ratings in
  let rows := collaborative_filtering_recommendations self movie_ids n in
  Forall (sound_row self) rows
  /\ (NoDup (map movieId movies) -> NoDup (map rec_id rows)).
Proof.
  intros Hr self rows.
  assert (Hpop : Forall (sound_row self) (_get_popular_movies self n)
                 /\ (NoDup (map movieId movies) ->
                     NoDup (map rec_id (_get_popular_movies self n)))).
  { rewrite popular_is_ranking. split.
    - apply Forall_forall. intros r Hin. apply in_firstn in Hin.
      now apply popular_ranking_sound.
    - intros Hnd. rewrite <- firstn_map. apply NoDup_firstn.
      apply popular_ranking_NoDup. unfold self. now rewrite built_movies. }
  unfold rows, collaborative_filtering_recommendations.
  destruct (pooled self n movie_ids) as [[|r l]|] eqn:E; try exact Hpop.
  apply (pooled_sound sw movies ratings) in E; [|exact Hr].
  split.
  - apply Forall_forall. intros x Hx.
    apply in_firstn, sort_desc_in, drop_duplicates_in in Hx.
    exact (proj1 (Forall_forall _ _) E x Hx).
  - intros _. rewrite <- firstn_map. apply NoDup_firstn.
    eapply Permutation_NoDup; [apply Permutation_map, sort_desc_perm|].
    apply drop_duplicates_NoDup.
Qed.

(** ** Rows of content-based recommendations *)

Lemma NoDup_map_nth {A : Type} (ids : list A) (positions : list nat) (d : A) :
  NoDup ids -> NoDup positions ->
  Forall (fun i => (i < length ids)%nat) positions ->
  NoDup (map (fun i => nth i ids d) positions).
Proof.
  intros Hids Hps Hrange.
  induction Hps as [|i ps Hi Hps IH]; simpl; constructor.
  - intros C. apply in_map_iff in C as (j & E & Hj).
    apply Hi. replace i with j; [exact Hj|].
    apply (proj1 (NoDup_nth ids d) Hids); [| |exact E].
    + exact (proj1 (Forall_forall _ _) (Forall_inv_tail Hrange) j Hj).
    + exact (Forall_inv Hrange).
  - apply IH. exact (Forall_inv_tail Hrange).
Qed.

Lemma map_tl {A B : Type} (f : A -> B) (l : list A) : map f (tl l) = tl (map f l).
Proof. now destruct l. Qed.

Lemma NoDup_tl {A : Type} (l : list A) : NoDup l -> NoDup (tl l).
Proof. intros H. destruct H; simpl; [constructor|assumption]. Qed.

(** The ranking read off a full-length row with entries in [[0,1]]. *)
Lemma content_ranking_sound (self : RecommendationEngine) (row : list R) (d : Movie) :
  length row = length (movies_df self) ->
  Forall (fun x => 0 <= x <= 1) row ->
  descending similarity_score (content_ranking self row d)
  /\ Forall (sound_row self) (content_ranking self row d)
  /\ (NoDup (map movieId (movies_df self)) ->
      NoDup (map rec_id (content_ranking self row d))).
Proof.
  intros Hlen Hrange. unfold content_ranking.
  set (ranked := tl (sort_desc snd (enumerate row))).
  assert (Hin : forall p, In p ranked -> In p (enumerate row)).
  { intros p Hp. unfold ranked in Hp. now apply in_tl, sort_desc_in in Hp. }
  split; [|split].
  - apply descending_map with (key := @snd nat R).
    + intros a b _ _ H. exact H.
    + apply descending_tl, sort_desc_descending.
  - apply Forall_map, Forall_forall. intros p Hp. apply Hin in Hp.
    split; simpl.
    + apply nth_In. apply enumerate_in in Hp. lia.
    + apply (in_map snd) in Hp. rewrite enumerate_snd in Hp.
      exact (proj1 (Forall_forall _ _) Hrange _ Hp).
  - intros Hnd. rewrite map_map. unfold rec_id. simpl.
    rewrite (map_ext _ (fun p => nth (fst p) (map movieId (movies_df self)) (movieId d)))
      by (intros p; symmetry; apply map_nth).
    rewrite <- (map_map fst (fun i => nth i (map movieId (movies_df self)) (movieId d))).
    apply NoDup_map_nth; [exact Hnd| |].
    + unfold ranked. rewrite map_tl. apply NoDup_tl.
      eapply Permutation_NoDup; [apply Permutation_map, sort_desc_perm|].
      rewrite enumerate_fst. apply seq_NoDup.
    + apply Forall_map, Forall_forall. intros p Hp.
      apply Hin, enumerate_in in Hp. rewrite length_map. lia.
Qed.

(** [content_based(movieId, n)] is the head of one ranking, whatever [n]:
    the row of the movie, or the popularity ranking for an unknown id. *)
Lemma content_based_ranking (sw : list string) (movies : list Movie)
    (ratings : list Rating) (movie_id : Z) :
  ratings_in_range ratings ->
  let self := built sw movies ratings in
  exists ranking,
    (forall n, content_based_recommendations self movie_id n = firstn n ranking)
    /\ descending similarity_score ranking
    /\ Forall (sound_row self) ranking
    /\ (NoDup (map movieId movies) -> NoDup (map rec_id ranking)).
Proof.
  intros Hr self.
  destruct (in_dec Z.eq_dec movie_id (map movieId movies)) as [Hin|Hout].
  - destruct (content_based_built sw movies ratings movie_id movie_A Hin)
      as (i & row & _ & _ & Hlen & Hrange & Hcb).
    exists (content_ranking self row movie_A).
    destruct (content_ranking_sound self row movie_A) as (Hd & Hs & Hn);
      [unfold self; now rewrite built_movies_length|exact Hrange|].
    repeat split; try assumption.
    intros Hnd. apply Hn. unfold self. now rewrite built_movies.
  - exists (popular_ranking self). repeat split.
    + intros n. rewrite content_based_absent; [apply popular_is_ranking|].
      unfold self. now rewrite built_movies.
    + apply popular_ranking_sorted.
    + apply Forall_forall. intros r. now apply popular_ranking_sound.
    + intros Hnd. apply popular_ranking_NoDup. unfold self.
      now rewrite built_movies.
Qed.

(** ** The scores of the hybrid dictionary *)

Lemma dict_get_cases (d : scores) (k : Z) (dflt : R) :
  dict_get d k dflt = dflt \/ In (k, dict_get d k dflt) d.
Proof.
  induction d as [|[k' v] d IH]; simpl; [now left|].
  destruct (Z.eqb_spec k k') as [->|_]; [right; now left|].
  destruct IH as [IH|IH]; [now left|right; now right].
Qed.

Lemma dict_set_in (d : scores) (k0 k : Z) (v0 v : R) :
  In (k, v) (dict_set d k0 v0) -> (k, v) = (k0, v0) \/ In (k, v) d.
Proof.
  induction d as [|[k' v'] d IH]; simpl.
  - intros [H|[]]. now left.
  - destruct (Z.eqb_spec k0 k') as [->|_]; simpl.
    + intros [H|H]; [left; now symmetry|right; now right].
    + intros [H|H]; [right; now left|].
      destruct (IH H) as [E|Hin]; [now left|right; now right].
Qed.

Lemma dict_set_keys (d : scores) (k0 : Z) (v0 : R) (k : Z) :
  In k (map fst (dict_set d k0 v0)) <-> k = k0 \/ In k (map fst d).
Proof.
  induction d as [|[k' v'] d IH]; simpl.
  - intuition.
  - destruct (Z.eqb_spec k0 k') as [->|_]; simpl; [intuition|].
    rewrite IH. intuition.
Qed.

Lemma accumulate_keys (w : R) (recs : list Recommendation) (d : scores) (k : Z) :
  In k (map fst (accumulate w recs d)) <->
  In k (map fst d) \/ In k (map rec_id recs).
Proof.
  unfold accumulate. revert d.
  induction recs as [|r recs IH]; intros d; simpl; [intuition|].
  rewrite IH, dict_set_keys. intuition.
Qed.

Lemma accumulate_nonempty (w : R) (recs : list Recommendation) (d : scores) :
  recs <> [] -> accumulate w recs d <> [].
Proof.
  intros Hne C. destruct recs as [|r recs]; [contradiction|].
  assert (Hk : In (rec_id r) (map fst (accumulate w (r :: recs) d)))
    by (apply accumulate_keys; right; now left).
  now rewrite C in Hk.
Qed.

Lemma firstn_double_nil {A : Type} (n : nat) (l : list A) :
  firstn (n * 2) l = [] -> firstn n l = [].
Proof.
  destruct n as [|n]; [reflexivity|]. now destruct l.
Qed.

(** When [collaborative(ids, 2n)] is empty, so is [popular(n)]. *)
Lemma collaborative_nil_popular (self : RecommendationEngine) (movie_ids : list Z)
    (n : nat) :
  collaborative_filtering_recommendations self movie_ids (n * 2) = [] ->
  _get_popular_movies self n = [].
Proof.
  unfold collaborative_filtering_recommendations. rewrite !popular_is_ranking.
  destruct (pooled self (n * 2) movie_ids) as [[|r l]|];
    try apply firstn_double_nil.
  intros H. destruct n as [|n]; [reflexivity|].
  exfalso.
  pose proof (sort_desc_length similarity_score (drop_duplicates (r :: l))) as Hlen.
  destruct (sort_desc similarity_score (drop_duplicates (r :: l)));
    [simpl in Hlen; discriminate|discriminate].
Qed.

Lemma movie_info_found (self : RecommendationEngine) (m : Movie) :
  In m (movies_df self) -> movie_info self (movieId m) <> None.
Proof.
  intros Hin C. unfold movie_info in C.
  apply (find_none _ _ C) in Hin. now rewrite Z.eqb_refl in Hin.
Qed.

(** The rows built from the best scores: catalog movies, each with a
    score of the dictionary (or the default 0). *)
Lemma hybrid_rows_in (self : RecommendationEngine) (hs : scores)
    (keys : list Z) (r : Recommendation) :
  In r (flat_map
          (fun movie_id =>
             match movie_info self movie_id with
             | Some m => [{| rec_movie := m;
                             similarity_score := dict_get hs movie_id 0 |}]
             | None => []
             end) keys) ->
  In (rec_movie r) (movies_df self)
  /\ (similarity_score r = 0 \/ exists k, In (k, similarity_score r) hs).
Proof.
  intros H. apply in_flat_map in H as (k & _ & H).
  destruct (movie_info self k) as [m|] eqn:E; [|contradiction].
  destruct H as [<-|[]]. simpl. split; [now apply movie_info_in in E|].
  destruct (dict_get_cases hs k 0) as [->|Hin]; [now left|right; now exists k].
Qed.

Lemma firstn_cons_pos {A : Type} (n : nat) (x : A) (l : list A) :
  (0 < n)%nat -> firstn n (x :: l) = x :: firstn (pred n) l.
Proof. destruct n; [lia|reflexivity]. Qed.

Lemma Forall_firstn {A : Type} (P : A -> Prop) (n : nat) (l : list A) :
  Forall P l -> Forall P (firstn n l).
Proof.
  intros H. apply Forall_forall. intros x Hx. apply in_firstn in Hx.
  exact (proj1 (Forall_forall _ _) H x Hx).
Qed.

(** Every row [hybrid] returns is a catalog movie whose score lies
    between 0 and the sum of the two weights. *)
Lemma user_recommendations_sound (sw : list string) (movies : list Movie)
    (ratings : list Rating) (u : Z) (n : nat) :
  ratings_in_range ratings ->
  let self := built sw movies ratings in
  Forall (sound_row self) (get_user_recommendations self u n).
Proof.
  intros Hr self.
  assert (Hpop : Forall (sound_row self) (_get_popular_movies self n)).
  { apply Forall_forall. intros r Hin. rewrite popular_is_ranking in Hin.
    apply in_firstn in Hin. now apply popular_ranking_sound. }
  unfold get_user_recommendations.
  destruct (find_index _ _); [|exact Hpop].
  destruct (map fst _) as [|m high] eqn:E; [exact Hpop|].
  apply (collaborative_sound sw movies ratings (m :: high) n Hr).
Qed.

(** A pass over rows without negative scores, with a weight that is not
    negative, leaves no negative score in the dictionary. *)
Lemma accumulate_nonneg (w : R) (recs : list Recommendation) (d : scores) :
  0 <= w -> Forall (fun r => 0 <= similarity_score r) recs ->
  (forall k v, In (k, v) d -> 0 <= v) ->
  forall k v, In (k, v) (accumulate w recs d) -> 0 <= v.
Proof.
  intros Hw Hs. unfold accumulate. revert d.
  induction Hs as [|r recs Hr Hrecs IH]; intros d Hd k v; simpl.
  - apply Hd.
  - apply IH. intros k' v' Hin. apply dict_set_in in Hin as [[= -> ->]|Hin].
    + destruct (dict_get_cases d (rec_id r) 0) as [->|Hg].
      * nra.
      * specialize (Hd _ _ Hg). nra.
    + exact (Hd _ _ Hin).
Qed.

Lemma hybrid_nonneg (sw : list string) (movies : list Movie) (ratings : list Rating)
    (movie_ids : list Z) (n : nat) (cw kw : R) (r : Recommendation) :
  ratings_in_range ratings -> 0 <= cw -> 0 <= kw ->
  let self := built sw movies ratings in
  In r (hybrid_recommendations self movie_ids n cw kw) ->
  0 <= similarity_score r.
Proof.
  intros Hr Hcw Hkw self. unfold hybrid_recommendations. cbv zeta.
  set (hs1 := match movie_ids return scores with
              | [] => []
              | first :: _ =>
                  accumulate cw
                    (content_based_recommendations self first (n * 2)) []
              end).
  set (collab := collaborative_filtering_recommendations self movie_ids (n * 2)).
  set (hs2 := accumulate kw collab hs1).
  set (rows := flat_map _ _).
  assert (Hlow : forall l, Forall (sound_row self) l ->
                   Forall (fun x => 0 <= similarity_score x) l).
  { intros l. apply Forall_impl. now intros x [_ [Hx _]]. }
  assert (Hb1 : forall k v, In (k, v) hs1 -> 0 <= v).
  { unfold hs1. destruct movie_ids as [|first rest]; [easy|].
    destruct (content_based_ranking sw movies ratings first Hr)
      as (ranking & Hcb & _ & Hsound & _).
    fold self in Hcb, Hsound. rewrite Hcb.
    apply accumulate_nonneg; [exact Hcw|now apply Hlow, Forall_firstn|easy]. }
  assert (Hb2 : forall k v, In (k, v) hs2 -> 0 <= v).
  { apply accumulate_nonneg; [exact Hkw| |exact Hb1].
    apply Hlow.
    exact (proj1 (collaborative_sound sw movies ratings movie_ids (n * 2) Hr)). }
  pose proof (eq_refl rows) as E. unfold rows at 2 in E. clearbody rows.
  destruct rows as [|r0 rows0].
  - intros Hin. rewrite popular_is_ranking in Hin. apply in_firstn in Hin.
    exact (proj1 (proj2 (popular_ranking_sound self r Hr Hin))).
  - intros Hin. rewrite E in Hin.
    apply hybrid_rows_in in Hin as [_ [H0|[k Hk]]].
    + rewrite H0. lra.
    + now apply (Hb2 k).
Qed.

(** C9, as the code has it: on ratings within [[0,5]], every row that
    [popular], [collaborative] and [for_user] return has its score in
    [[0,1]] (a mean rating divided by 5, or 1 minus a distance clipped to
    [[0,2]]); no row of [content_based] has a negative score, and with
    weights that are not negative no row of [hybrid] has one.  No upper
    bound is stated for [content_based] and [hybrid]: a hybrid score grows
    with the weights, and a cosine computed in floating point need not
    stay at or below 1. *)
Theorem similarity_scores_bounded
    (sw : list string) (movies : list Movie) (ratings : list Rating)
    (self : RecommendationEngine) :
  __init__ sw movies ratings = Ok self ->
  ratings_in_range ratings ->
  (forall n r,
     In r (_get_popular_movies self n) -> 0 <= similarity_score r <= 1)
  /\ (forall movie_ids n r,
        In r (collaborative_filtering_recommendations self movie_ids n) ->
        0 <= similarity_score r <= 1)
  /\ (forall u n r,
        In r (get_user_recommendations self u n) ->
        0 <= similarity_score r <= 1)
  /\ (forall movie_id n r,
        In r (content_based_recommendations self movie_id n) ->
        0 <= similarity_score r)
  /\ (forall movie_ids n cw kw r,
        0 <= cw -> 0 <= kw ->
        In r (hybrid_recommendations self movie_ids n cw kw) ->
        0 <= similarity_score r).
Proof.
  intros Hinit Hr. apply init_inv in Hinit as [_ ->].
  set (self := built sw movies ratings).
  split; [|split; [|split; [|split]]].
  - intros n r Hin. rewrite popular_is_ranking in Hin. apply in_firstn in Hin.
    exact (proj2 (popular_ranking_sound self r Hr Hin)).
  - intros movie_ids n r Hin.
    destruct (collaborative_sound sw movies ratings movie_ids n Hr) as [Hsound _].
    exact (proj2 (proj1 (Forall_forall _ _) Hsound r Hin)).
  - intros u n r Hin.
    pose proof (user_recommendations_sound sw movies ratings u n Hr) as Hsound.
    exact (proj2 (proj1 (Forall_forall _ _) Hsound r Hin)).
  - intros movie_id n r Hin.
    destruct (content_based_ranking sw movies ratings movie_id Hr)
      as (ranking & Hcb & _ & Hsound & _).
    fold self in Hcb. rewrite Hcb in Hin. apply in_firstn in Hin.
    exact (proj1 (proj2 (proj1 (Forall_forall _ _) Hsound r Hin))).
  - intros movie_ids n cw kw r Hcw Hkw Hin.
    exact (hybrid_nonneg sw movies ratings movie_ids n cw kw r Hr Hcw Hkw Hin).
Qed.

Lemma ten_ratings_in_range : ratings_in_range ten_ratings.
Proof.
  unfold ratings_in_range, ten_ratings. apply Forall_forall. intros r Hin.
  apply in_map_iff in Hin. destruct Hin as (u & <- & _). simpl. lra.
Qed.

Lemma sample_vocabulary_A :
  vocabulary (catalog_docs sample_stop_words [movie_A]) <> [].
Proof. vm_compute. discriminate. Qed.

(** The two movies of the sample catalog have similarity 1. *)
Lemma unit_row_drama :
  let docs := catalog_docs sample_stop_words [movie_A; movie_B] in
  let u := normalize (tfidf_row docs ["drama"%string]) in
  dot u u = 1.
Proof.
  cbv zeta.
  pose proof (sim_diagonal sample_stop_words [movie_A; movie_B] [] 0 movie_A
                eq_refl) as H.
  rewrite sim_built in H by (simpl; lia). exact H.
Qed.

Lemma content_based_AB (ratings : list Rating) :
  content_based_recommendations
    (built sample_stop_words [movie_A; movie_B] ratings) 1 (1 * 2)
  = [{| rec_movie := movie_B; similarity_score := 1 |}].
Proof.
  pose proof unit_rows_AB as Hu. pose proof unit_row_drama as H1.
  cbv zeta in Hu, H1. set (u := normalize _) in Hu, H1.
  set (self := built sample_stop_words [movie_A; movie_B] ratings).
  rewrite (content_based_found self 1 (1 * 2) 0 [dot u u; dot u u] movie_A).
  - unfold content_ranking. rewrite H1.
    unfold sort_desc, enumerate. cbn -[Rltb]. rewrite Rltb_irrefl. reflexivity.
  - reflexivity.
  - unfold self. rewrite built_matrix, Hu. reflexivity.
  - simpl. lia.
Qed.

Lemma hybrid_double_weight :
  hybrid_recommendations (built sample_stop_words [movie_A; movie_B] [])
    [1%Z] 1 2 0
  = [{| rec_movie := movie_B; similarity_score := 0 + 2 * 1 |}].
Proof.
  unfold hybrid_recommendations. cbv zeta. rewrite content_based_AB.
  reflexivity.
Qed.

(** With ten ratings of movie 1, [collaborative([1], 2)] finds no other
    rated movie and returns the popular movie 1. *)
Lemma collaborative_ten_ratings :
  collaborative_filtering_recommendations
    (built sample_stop_words [movie_A; movie_B] ten_ratings) [1%Z] (1 * 2)
  = [{| rec_movie := movie_A;
        similarity_score := mean (map rating ten_ratings) / 5 |}].
Proof. reflexivity. Qed.

Lemma hybrid_double_weight_rated :
  hybrid_recommendations (built sample_stop_words [movie_A; movie_B] ten_ratings)
    [1%Z] 1 2 0
  = [{| rec_movie := movie_B; similarity_score := 0 + 2 * 1 |}].
Proof.
  unfold hybrid_recommendations. cbv zeta.
  rewrite content_based_AB, collaborative_ten_ratings.
  unfold accumulate. cbn -[Rltb mean ten_ratings].
  rewrite (proj2 (Rltb_false_iff (0 + 2 * 1) _)) by lra.
  reflexivity.
Qed.

Lemma similarity_scores_bounded_witness :
  0 <= mean (map rating ten_ratings) / 5 <= 1 /\ 0 <= 0 + 2 * 1.
Proof.
  destruct (similarity_scores_bounded sample_stop_words [movie_A; movie_B]
              ten_ratings
              (built sample_stop_words [movie_A; movie_B] ten_ratings)
              (init_ok _ _ _ sample_vocabulary_AB) ten_ratings_in_range)
    as (_ & Hcollab & _ & _ & Hhybrid).
  split.
  - apply (Hcollab [1%Z] (1 * 2)%nat
             {| rec_movie := movie_A;
                similarity_score := mean (map rating ten_ratings) / 5 |}).
    rewrite collaborative_ten_ratings. now left.
  - apply (Hhybrid [1%Z] 1%nat 2 0
             {| rec_movie := movie_B; similarity_score := 0 + 2 * 1 |});
      [lra|lra|].
    rewrite hybrid_double_weight_rated. now left.
Defined.

(** C9 as stated fails: with the weight pair (2, 0) the hybrid score of
    the one recommended movie is 2. *)
Lemma hybrid_score_above_one :
  exists self,
    __init__ sample_stop_words [movie_A; movie_B] [] = Ok self
    /\ exists r,
         In r (hybrid_recommendations self [1%Z] 1 2 0)
         /\ 1 < similarity_score r.
Proof.
  exists (built sample_stop_words [movie_A; movie_B] []).
  split; [apply init_ok, sample_vocabulary_AB|].
  rewrite hybrid_double_weight. eexists. split; [now left|].
  simpl. lra.
Qed.

(** ** Hybrid recommendations with the collaborative weight at zero *)

Lemma dict_set_same (d : scores) (k : Z) :
  In k (map fst d) -> dict_set d k (dict_get d k 0) = d.
Proof.
  induction d as [|[k' v] d IH]; simpl; intros Hin; [contradiction|].
  destruct (Z.eqb_spec k k') as [->|N]; [reflexivity|].
  f_equal. apply IH. destruct Hin as [E|Hin]; [congruence|exact Hin].
Qed.

(** A pass with weight zero changes no score; it only appends the ids
    it had not met, with score 0. *)
Lemma accumulate_zero (recs : list Recommendation) (d : scores) :
  exists extra,
    accumulate 0 recs d = d ++ extra
    /\ forall p, In p extra -> snd p = 0 /\ In (fst p) (map rec_id recs).
Proof.
  unfold accumulate. revert d.
  induction recs as [|r recs IH]; intros d; simpl.
  - exists []. split; [now rewrite app_nil_r|intros p []].
  - replace (dict_get d (rec_id r) 0 + 0 * similarity_score r)
      with (dict_get d (rec_id r) 0) by ring.
    destruct (in_dec Z.eq_dec (rec_id r) (map fst d)) as [Hin|Hout].
    + rewrite dict_set_same by exact Hin.
      destruct (IH d) as (extra & E & Hextra). exists extra.
      split; [exact E|]. intros p Hp. destruct (Hextra p Hp). auto.
    + rewrite dict_get_absent, dict_set_absent by exact Hout.
      destruct (IH (d ++ [(rec_id r, 0)])) as (extra & E & Hextra).
      exists ((rec_id r, 0) :: extra).
      split; [now rewrite E, <- app_assoc|].
      intros p [<-|Hp]; [simpl; auto|]. destruct (Hextra p Hp). auto.
Qed.

Lemma hybrid_rows_ids (self : RecommendationEngine) (hs : scores) (keys : list Z) :
  (forall k, In k keys -> movie_info self k <> None) ->
  map rec_id
    (flat_map
       (fun movie_id =>
          match movie_info self movie_id with
          | Some m => [{| rec_movie := m;
                          similarity_score := dict_get hs movie_id 0 |}]
          | None => []
          end) keys)
  = keys.
Proof.
  induction keys as [|k keys IH]; intros Hfound; [reflexivity|].
  cbn [flat_map]. rewrite map_app, IH by (intros; apply Hfound; now right).
  destruct (movie_info self k) as [m|] eqn:E.
  - apply movie_info_in in E as [_ E]. simpl. unfold rec_id. simpl.
    now rewrite E.
  - exfalso. apply (Hfound k); [now left|exact E].
Qed.

Lemma firstn_app_nil {A : Type} (n : nat) (l l' : list A) :
  firstn n (firstn (n * 2) l ++ l') = [] -> firstn n l = [].
Proof.
  destruct n as [|n]; [reflexivity|]. destruct l; [reflexivity|discriminate].
Qed.

(** With weights (1, 0) the ids [hybrid] returns start with the ids of
    [content_based] for the first seed. *)
Lemma hybrid_content_prefix (sw : list string) (movies : list Movie)
    (ratings : list Rating) (first : Z) (rest : list Z) (n : nat) :
  ratings_in_range ratings -> NoDup (map movieId movies) ->
  let self := built sw movies ratings in
  exists padding,
    map rec_id (hybrid_recommendations self (first :: rest) n 1 0)
    = map rec_id (content_based_recommendations self first n) ++ padding.
Proof.
  intros Hr Hnd self.
  destruct (content_based_ranking sw movies ratings first Hr)
    as (ranking & Hcb & Hdesc & Hsound & Hids).
  fold self in Hcb, Hsound. specialize (Hids Hnd).
  destruct (collaborative_sound sw movies ratings (first :: rest) (n * 2) Hr)
    as [Hks _]. fold self in Hks.
  unfold hybrid_recommendations. cbv zeta. rewrite !Hcb.
  set (collab := collaborative_filtering_recommendations self (first :: rest) (n * 2)).
  fold collab in Hks.
  set (content2 := firstn (n * 2) ranking).
  set (entry := fun r => (rec_id r, 0 + 1 * similarity_score r)).
  rewrite (accumulate_fresh 1 content2 []);
    [|unfold content2; rewrite <- firstn_map; now apply NoDup_firstn
     |intros r _ []].
  rewrite app_nil_l. fold entry.
  destruct (accumulate_zero collab (map entry content2)) as (extra & -> & Hextra).
  assert (Hsound2 : forall r, In r content2 -> sound_row self r).
  { intros r Hin. unfold content2 in Hin. apply in_firstn in Hin.
    exact (proj1 (Forall_forall _ _) Hsound r Hin). }
  rewrite (sort_desc_app (@snd Z R)).
  2:{ apply descending_map with (key := similarity_score).
      - intros a b _ _ H. simpl. lra.
      - unfold content2. now apply descending_firstn. }
  2:{ intros a b Ha Hb. apply in_map_iff in Ha as (r & <- & Hin).
      destruct (Hextra b Hb) as [-> _].
      destruct (Hsound2 r Hin) as [_ Hs]. simpl. lra. }
  set (ordered := map entry content2 ++ sort_desc snd extra).
  set (rows := flat_map _ _).
  assert (Hrows : map rec_id rows = map fst (firstn n ordered)).
  { apply hybrid_rows_ids. intros k Hk.
    apply in_map_iff in Hk as (p & <- & Hp). apply in_firstn in Hp.
    unfold ordered in Hp. apply in_app_iff in Hp as [Hp|Hp].
    - apply in_map_iff in Hp as (r & <- & Hin). simpl.
      apply movie_info_found. exact (proj1 (Hsound2 r Hin)).
    - apply sort_desc_in in Hp. destruct (Hextra p Hp) as [_ Hin].
      apply in_map_iff in Hin as (x & <- & Hx). apply movie_info_found.
      exact (proj1 (proj1 (Forall_forall _ _) Hks x Hx)). }
  assert (Htop : map fst (firstn n ordered)
                 = firstn n (firstn (n * 2) (map rec_id ranking)
                             ++ map fst (sort_desc snd extra))).
  { rewrite <- firstn_map. unfold ordered, content2.
    rewrite map_app, map_map.
    change (fun x => fst (entry x)) with rec_id.
    now rewrite <- firstn_map. }
  rewrite <- firstn_map.
  destruct rows as [|r0 rows0].
  - simpl in Hrows. rewrite Htop in Hrows. symmetry in Hrows.
    apply firstn_app_nil in Hrows. rewrite Hrows. simpl. eauto.
  - rewrite Hrows, Htop, firstn_app, firstn_firstn_double. eauto.
Qed.

(** No strategy of the hybrid returns more rows than requested. *)
Lemma hybrid_length (self : RecommendationEngine) (movie_ids : list Z) (n : nat)
    (cw kw : R) :
  (length (hybrid_recommendations self movie_ids n cw kw) <= n)%nat.
Proof.
  unfold hybrid_recommendations. cbv zeta.
  set (top := firstn n _).
  assert (Htop : (length (map fst top) <= n)%nat)
    by (rewrite length_map; apply firstn_le_length).
  set (look := fun movie_id : Z => _).
  assert (Hrows : forall keys, (length (flat_map look keys) <= length keys)%nat).
  { induction keys as [|k keys IH]; simpl; [lia|].
    rewrite length_app. unfold look at 1.
    destruct (movie_info self k); simpl; lia. }
  specialize (Hrows (map fst top)).
  destruct (flat_map look (map fst top)) eqn:E.
  - rewrite popular_is_ranking. apply firstn_le_length.
  - lia.
Qed.

(** C8, as the code has it: on a catalog with distinct ids and ratings
    within [[0,5]], with weights (1.0, 0.0) and a list of seeds that is
    not empty, [hybrid] ranks the movies as [content_based] does for the
    first seed: its ids are those of [content_based(ids[0], n)], in the
    same order, followed by padding up to at most [n] rows; when
    [content_based] already has [n] rows the two rankings are equal. *)
Theorem hybrid_content_weight_only
    (sw : list string) (movies : list Movie) (ratings : list Rating)
    (self : RecommendationEngine) (first : Z) (rest : list Z) (n : nat) :
  __init__ sw movies ratings = Ok self ->
  ratings_in_range ratings ->
  NoDup (map movieId movies) ->
  let hybrid :=
    map rec_id (hybrid_recommendations self (first :: rest) n 1 0) in
  let content := map rec_id (content_based_recommendations self first n) in
  (length hybrid <= n)%nat
  /\ (exists padding, hybrid = content ++ padding)
  /\ (length content = n -> hybrid = content).
Proof.
  intros Hinit Hr Hnd hybrid content. apply init_inv in Hinit as [_ ->].
  assert (Hlen : (length hybrid <= n)%nat).
  { unfold hybrid. rewrite length_map. apply hybrid_length. }
  destruct (hybrid_content_prefix sw movies ratings first rest n Hr Hnd)
    as [padding Hpad].
  fold hybrid content in Hpad.
  split; [exact Hlen|]. split; [now exists padding|].
  intros Hfull. rewrite Hpad in Hlen |- *. rewrite length_app in Hlen.
  destruct padding; [now rewrite app_nil_r|simpl in Hlen; lia].
Qed.

Lemma hybrid_content_weight_only_witness :
  let ratings := [rating_5 7 1; rating_5 7 3] in
  let self := built sample_stop_words [movie_A; movie_B; movie_C] ratings in
  let hybrid := map rec_id (hybrid_recommendations self [1%Z] 2 1 0) in
  let content := map rec_id (content_based_recommendations self 1 2) in
  (length hybrid <= 2)%nat
  /\ (exists padding, hybrid = content ++ padding)
  /\ (length content = 2%nat -> hybrid = content).
Proof.
  apply (hybrid_content_weight_only sample_stop_words
           [movie_A; movie_B; movie_C] [rating_5 7 1; rating_5 7 3]).
  - apply init_ok. vm_compute. discriminate.
  - unfold ratings_in_range. repeat apply Forall_cons; [simpl; lra..|apply Forall_nil].
  - simpl. constructor; [intros [H|[H|[]]]; discriminate|].
    constructor; [intros [H|[]]; discriminate|].
    constructor; [intros []|constructor].
Defined.

Lemma sample_vocabulary_ABB :
  vocabulary (catalog_docs sample_stop_words [movie_A; movie_B; movie_B']) <> [].
Proof. vm_compute. discriminate. Qed.

Lemma unit_rows_ABB :
  let docs := catalog_docs sample_stop_words [movie_A; movie_B; movie_B'] in
  let u := normalize (tfidf_row docs ["drama"%string]) in
  unit_rows sample_stop_words [movie_A; movie_B; movie_B'] = [u; u; u].
Proof. reflexivity. Qed.

(** In the catalog of [movie_A], [movie_B] and [movie_B'], every
    content-based frame for movie 1 with room for two rows holds the two
    rows of id 2, with one score. *)
Lemma content_based_ABB (n : nat) :
  (2 <= n)%nat ->
  exists a,
    content_based_recommendations
      (built sample_stop_words [movie_A; movie_B; movie_B'] []) 1 n
    = [{| rec_movie := movie_B; similarity_score := a |};
       {| rec_movie := movie_B'; similarity_score := a |}].
Proof.
  intros Hn. pose proof unit_rows_ABB as Hu. cbv zeta in Hu.
  set (u := normalize _) in Hu. exists (dot u u).
  rewrite (content_based_found _ 1 n 0 [dot u u; dot u u; dot u u] movie_A).
  - unfold content_ranking. generalize (dot u u). intros a.
    unfold sort_desc, enumerate.
    repeat (cbn -[Rltb firstn]; rewrite Rltb_irrefl). cbn -[Rltb firstn].
    now rewrite firstn_all2 by (simpl; lia).
  - reflexivity.
  - rewrite built_matrix, Hu. reflexivity.
  - simpl. lia.
Qed.

(** C8 as stated fails: in a catalog that holds the id 2 twice,
    [content_based(1, 2)] returns the two rows of id 2, while [hybrid]
    with weights (1, 0) keeps one score per id and returns one row. *)
Lemma hybrid_duplicate_id_counterexample :
  exists self,
    __init__ sample_stop_words [movie_A; movie_B; movie_B'] [] = Ok self
    /\ map rec_id (content_based_recommendations self 1 2) = [2; 2]%Z
    /\ map rec_id (hybrid_recommendations self [1%Z] 2 1 0) = [2%Z].
Proof.
  exists (built sample_stop_words [movie_A; movie_B; movie_B'] []).
  split; [apply init_ok, sample_vocabulary_ABB|]. split.
  - destruct (content_based_ABB 2) as [a ->]; [lia|reflexivity].
  - unfold hybrid_recommendations. cbv zeta.
    destruct (content_based_ABB (2 * 2)) as [a ->]; [lia|].
    reflexivity.
Qed.

(** ** The scenario of three movies *)

Lemma dot_normalize_zero (u v : list R) :
  dot u v = 0 -> dot (normalize u) (normalize v) = 0.
Proof.
  intros H. unfold normalize.
  pose proof (handle_zeros_pos _ (l2_norm_nonneg u)).
  pose proof (handle_zeros_pos _ (l2_norm_nonneg v)).
  rewrite dot_scale, H by lra. unfold Rdiv. ring.
Qed.

Lemma drama_comedy_orthogonal :
  let docs := catalog_docs sample_stop_words [movie_A; movie_B; movie_C] in
  dot (normalize (tfidf_row docs ["drama"%string]))
      (normalize (tfidf_row docs ["comedy"%string])) = 0.
Proof.
  intros docs. apply dot_normalize_zero. unfold tfidf_row.
  apply dot_normalize_zero. unfold tfidf_raw.
  change (vocabulary docs) with ["drama"%string; "comedy"%string].
  generalize (idf docs). intros f.
  change (term_count "drama" ["drama"%string]) with 1%nat.
  change (term_count "comedy" ["drama"%string]) with 0%nat.
  change (term_count "drama" ["comedy"%string]) with 0%nat.
  change (term_count "comedy" ["comedy"%string]) with 1%nat.
  unfold dot. simpl. ring.
Qed.

(** In the catalog of [movie_A] (Drama), [movie_B] (Drama) and [movie_C]
    (Comedy), [content_based(1, 2)] ranks [movie_B], which shares the
    genre, above [movie_C]. *)
Example shared_genre_ranks_first :
  map rec_movie
    (content_based_recommendations
       (built sample_stop_words [movie_A; movie_B; movie_C] []) 1 2)
  = [movie_B; movie_C].
Proof.
  pose proof drama_comedy_orthogonal as H0. cbv zeta in H0.
  pose proof (sim_diagonal sample_stop_words [movie_A; movie_B; movie_C] [] 0
                movie_A eq_refl) as H1.
  rewrite sim_built in H1 by (simpl; lia). cbv zeta in H1.
  change (nth 0 (catalog_docs sample_stop_words [movie_A; movie_B; movie_C]) [])
    with ["drama"%string] in H1.
  change (match genre_tokens sample_stop_words movie_A with
          | [] => 0 | _ :: _ => 1 end) with 1 in H1.
  set (docs := catalog_docs sample_stop_words [movie_A; movie_B; movie_C]) in *.
  set (ud := normalize (tfidf_row docs ["drama"%string])) in *.
  set (uc := normalize (tfidf_row docs ["comedy"%string])) in *.
  rewrite (content_based_found _ 1 2 0 [dot ud ud; dot ud ud; dot ud uc] movie_A).
  - unfold content_ranking. rewrite H0, H1.
    unfold sort_desc, enumerate. cbn -[Rltb].
    rewrite (proj2 (Rltb_false_iff 1 0)) by lra. cbn -[Rltb].
    rewrite Rltb_irrefl. reflexivity.
  - reflexivity.
  - reflexivity.
  - simpl. lia.
Qed.

(** * Further properties of the engine *)

(** ** Length and order of every result *)

Lemma iloc_some {A : Type} (l : list A) (positions : list nat) (rows : list A) :
  iloc l positions = Some rows ->
  Forall (fun i => (i < length l)%nat) positions.
Proof.
  revert rows. induction positions as [|i ps IH]; simpl; intros rows.
  - constructor.
  - destruct (nth_error l i) as [x|] eqn:E; [|discriminate].
    destruct (iloc l ps) as [xs|]; [|discriminate].
    intros _. constructor; [apply nth_error_Some; congruence|].
    now apply (IH xs).
Qed.

(** [content_based_recommendations] returns either the fallback or the
    head of the ranking of one matrix row. *)
Lemma content_based_cases (self : RecommendationEngine) (movie_id : Z) (n : nat)
    (d : Movie) :
  content_based_recommendations self movie_id n = _get_popular_movies self n
  \/ exists i row,
       find_index (fun m => (movieId m =? movie_id)%Z) (movies_df self) = Some i
       /\ nth_error (content_similarity_matrix self) i = Some row
       /\ Forall (fun p => (fst p < length (movies_df self))%nat)
                 (firstn n (tl (sort_desc snd (enumerate row))))
       /\ content_based_recommendations self movie_id n
          = firstn n (content_ranking self row d).
Proof.
  unfold content_based_recommendations, content_ranking.
  destruct (find_index _ _) as [i|] eqn:Hi; [|now left].
  destruct (nth_error _ i) as [row|] eqn:Hrow; [|now left].
  set (picked := firstn n (tl (sort_desc snd (enumerate row)))).
  destruct (iloc (movies_df self) (map fst picked)) as [rows|] eqn:E; [|now left].
  right. exists i, row. split; [reflexivity|]. split; [exact Hrow|].
  pose proof (iloc_some _ _ _ E) as Hrange.
  split; [now apply Forall_map in Hrange|].
  rewrite (iloc_in_range _ _ d Hrange) in E. injection E as <-.
  rewrite firstn_map. fold picked.
  clear. induction picked as [|p l IH]; simpl; [reflexivity|]. now rewrite IH.
Qed.

Lemma content_ranking_descending (self : RecommendationEngine) (row : list R)
    (d : Movie) :
  descending similarity_score (content_ranking self row d).
Proof.
  unfold content_ranking. apply descending_map with (key := @snd nat R).
  - intros a b _ _ H. exact H.
  - apply descending_tl, sort_desc_descending.
Qed.

Lemma collaborative_cases (self : RecommendationEngine) (movie_ids : list Z)
    (n : nat) :
  collaborative_filtering_recommendations self movie_ids n
  = _get_popular_movies self n
  \/ exists rows,
       pooled self n movie_ids = Ok rows /\ rows <> []
       /\ collaborative_filtering_recommendations self movie_ids n
          = firstn n (sort_desc similarity_score (drop_duplicates rows)).
Proof.
  unfold collaborative_filtering_recommendations.
  destruct (pooled self n movie_ids) as [[|r l]|]; [now left| |now left].
  right. exists (r :: l). repeat split. discriminate.
Qed.

Lemma user_recommendations_cases_any (self : RecommendationEngine) (u : Z) (n : nat) :
  get_user_recommendations self u n = _get_popular_movies self n
  \/ exists high,
       get_user_recommendations self u n
       = collaborative_filtering_recommendations self high n.
Proof.
  unfold get_user_recommendations.
  destruct (find_index _ _); [|now left].
  destruct (map fst _) as [|m high]; [now left|].
  right. now exists (m :: high).
Qed.

(** X1: whatever the state of the engine, no strategy returns more rows
    than requested. *)
Theorem strategies_return_at_most_n (self : RecommendationEngine) (n : nat) :
  (length (_get_popular_movies self n) <= n)%nat
  /\ (forall movie_id,
        (length (content_based_recommendations self movie_id n) <= n)%nat)
  /\ (forall movie_ids,
        (length (collaborative_filtering_recommendations self movie_ids n) <= n)%nat)
  /\ (forall movie_ids cw kw,
        (length (hybrid_recommendations self movie_ids n cw kw) <= n)%nat)
  /\ (forall u, (length (get_user_recommendations self u n) <= n)%nat).
Proof.
  assert (Hpop : (length (_get_popular_movies self n) <= n)%nat)
    by (rewrite popular_is_ranking; apply firstn_le_length).
  assert (Hcollab : forall movie_ids,
             (length (collaborative_filtering_recommendations self movie_ids n)
              <= n)%nat).
  { intros ids. destruct (collaborative_cases self ids n) as [->|(rows & _ & _ & ->)];
      [exact Hpop|apply firstn_le_length]. }
  split; [exact Hpop|]. split; [|split; [exact Hcollab|split]].
  - intros movie_id.
    destruct (content_based_cases self movie_id n movie_A)
      as [->|(i & row & _ & _ & _ & ->)]; [exact Hpop|apply firstn_le_length].
  - intros ids cw kw. apply hybrid_length.
  - intros u. destruct (user_recommendations_cases_any self u n) as [->|[high ->]];
      [exact Hpop|apply Hcollab].
Qed.

Lemma dict_set_NoDup (d : scores) (k : Z) (v : R) :
  NoDup (map fst d) -> NoDup (map fst (dict_set d k v)).
Proof.
  induction d as [|[k' v'] d IH]; simpl; intros Hnd.
  - constructor; [intros []|constructor].
  - apply NoDup_cons_iff in Hnd as [Hk Hnd].
    destruct (Z.eqb_spec k k') as [->|N]; simpl.
    + now constructor.
    + constructor; [|now apply IH].
      rewrite dict_set_keys. intros [E|C]; [congruence|contradiction].
Qed.

(** The dictionary never holds a key twice. *)
Lemma accumulate_NoDup (w : R) (recs : list Recommendation) (d : scores) :
  NoDup (map fst d) -> NoDup (map fst (accumulate w recs d)).
Proof.
  unfold accumulate. revert d.
  induction recs as [|r recs IH]; intros d Hnd; simpl; [exact Hnd|].
  apply IH. now apply dict_set_NoDup.
Qed.

Lemma hybrid_scores_NoDup (self : RecommendationEngine) (movie_ids : list Z)
    (n : nat) (cw kw : R) (collab : list Recommendation) :
  NoDup (map fst
           (accumulate kw collab
              match movie_ids return scores with
              | [] => []
              | first :: _ =>
                  accumulate cw
                    (content_based_recommendations self first (n * 2)) []
              end)).
Proof.
  apply accumulate_NoDup. destruct movie_ids; [constructor|].
  apply accumulate_NoDup. constructor.
Qed.

(** The rows built from entries in descending order are in descending
    order. *)
Lemma hybrid_rows_descending (self : RecommendationEngine) (hs : scores)
    (entries : list (Z * R)) :
  descending snd entries ->
  (forall p, In p entries -> dict_get hs (fst p) 0 = snd p) ->
  descending similarity_score
    (flat_map
       (fun movie_id =>
          match movie_info self movie_id with
          | Some m => [{| rec_movie := m;
                          similarity_score := dict_get hs movie_id 0 |}]
          | None => []
          end) (map fst entries)).
Proof.
  intros Hdesc. induction Hdesc as [|p entries Hd IH Hp]; intros Hget.
  - constructor.
  - cbn [map flat_map].
    assert (Htail := IH (fun q Hq => Hget q (or_intror Hq))).
    destruct (movie_info self (fst p)) as [m|]; [|exact Htail].
    simpl. constructor; [exact Htail|].
    apply Forall_forall. intros r Hr. simpl.
    apply in_flat_map in Hr as (k & Hk & Hr).
    destruct (movie_info self k); [|contradiction]. destruct Hr as [<-|[]].
    simpl. apply in_map_iff in Hk as (q & <- & Hq).
    rewrite (Hget p (or_introl eq_refl)), (Hget q (or_intror Hq)).
    exact (proj1 (Forall_forall _ _) Hp q Hq).
Qed.

(** X2: whatever the state of the engine, every strategy returns its
    rows in descending order of [similarity_score]. *)
Theorem strategies_return_descending_scores
    (self : RecommendationEngine) (n : nat) :
  descending similarity_score (_get_popular_movies self n)
  /\ (forall movie_id,
        descending similarity_score
          (content_based_recommendations self movie_id n))
  /\ (forall movie_ids,
        descending similarity_score
          (collaborative_filtering_recommendations self movie_ids n))
  /\ (forall movie_ids cw kw,
        descending similarity_score
          (hybrid_recommendations self movie_ids n cw kw))
  /\ (forall u,
        descending similarity_score (get_user_recommendations self u n)).
Proof.
  assert (Hpop : descending similarity_score (_get_popular_movies self n)).
  { rewrite popular_is_ranking. apply descending_firstn, popular_ranking_sorted. }
  assert (Hcollab : forall movie_ids,
             descending similarity_score
               (collaborative_filtering_recommendations self movie_ids n)).
  { intros ids. destruct (collaborative_cases self ids n) as [->|(rows & _ & _ & ->)];
      [exact Hpop|]. apply descending_firstn, sort_desc_descending. }
  split; [exact Hpop|]. split; [|split; [exact Hcollab|split]].
  - intros movie_id.
    destruct (content_based_cases self movie_id n movie_A)
      as [->|(i & row & _ & _ & _ & ->)]; [exact Hpop|].
    apply descending_firstn, content_ranking_descending.
  - intros ids cw kw. unfold hybrid_recommendations. cbv zeta.
    set (collab := collaborative_filtering_recommendations self ids (n * 2)).
    pose proof (hybrid_scores_NoDup self ids n cw kw collab) as Hnd.
    set (hs := accumulate kw collab _) in *.
    assert (Hrows : descending similarity_score
              (flat_map
                 (fun movie_id =>
                    match movie_info self movie_id with
                    | Some m => [{| rec_movie := m;
                                    similarity_score := dict_get hs movie_id 0 |}]
                    | None => []
                    end) (map fst (firstn n (sort_desc snd hs))))).
    { apply hybrid_rows_descending.
      - apply descending_firstn, sort_desc_descending.
      - intros [k v] Hp. apply in_firstn, sort_desc_in in Hp.
        now apply dict_get_present. }
    destruct (flat_map _ _); [exact Hpop|exact Hrows].
  - intros u. destruct (user_recommendations_cases_any self u n) as [->|[high ->]];
      [exact Hpop|apply Hcollab].
Qed.

(** ** Seeds without ratings, and the neighbour search *)

Lemma pooled_absent (self : RecommendationEngine) (n : nat) (movie_ids : list Z) :
  (forall k, In k movie_ids -> ~ In k (columns (user_item_matrix self))) ->
  pooled self n movie_ids = Ok [].
Proof.
  induction movie_ids as [|k ids IH]; intros H; simpl; [reflexivity|].
  unfold similar_movies. rewrite find_index_none.
  - simpl. rewrite IH by (intros; apply H; now right). reflexivity.
  - intros c Hc. apply Z.eqb_neq. intros E. apply (H k); [now left|].
    now rewrite E.
Qed.

(** X3: when no seed is a column of the user-item matrix (none of them
    has a rating), [collaborative] returns the popularity fallback. *)
Theorem collaborative_unrated_seeds_is_popular
    (self : RecommendationEngine) (movie_ids : list Z) (n : nat) :
  (forall k, In k movie_ids -> ~ In k (columns (user_item_matrix self))) ->
  collaborative_filtering_recommendations self movie_ids n
  = _get_popular_movies self n.
Proof.
  intros H. unfold collaborative_filtering_recommendations.
  now rewrite pooled_absent.
Qed.

Lemma collaborative_unrated_seeds_is_popular_witness :
  collaborative_filtering_recommendations
    (built sample_stop_words [movie_A; movie_B] ten_ratings) [2; 3]%Z 4
  = _get_popular_movies (built sample_stop_words [movie_A; movie_B] ten_ratings) 4.
Proof.
  apply collaborative_unrated_seeds_is_popular.
  intros k Hk. vm_compute. intros [E|[]].
  destruct Hk as [<-|[<-|[]]]; discriminate.
Defined.

Lemma transpose_length (df : DataFrame) :
  length (transpose df) = length (columns df).
Proof. unfold transpose. now rewrite length_map, length_seq. Qed.

Lemma flat_map_length_le {A B : Type} (f : A -> list B) (l : list A) :
  (forall x, (length (f x) <= 1)%nat) ->
  (length (flat_map f l) <= length l)%nat.
Proof.
  intros H. induction l as [|x l IH]; simpl; [lia|].
  rewrite length_app. specialize (H x). lia.
Qed.

(** For a constructed engine the neighbour search of one seed never
    raises, and gives at most [n] rows. *)
Lemma similar_movies_ok (sw : list string) (movies : list Movie)
    (ratings : list Rating) (n : nat) (movie_id : Z) :
  exists rows,
    similar_movies (built sw movies ratings) n movie_id = Ok rows
    /\ (length rows <= n)%nat.
Proof.
  set (self := built sw movies ratings). unfold similar_movies.
  change (user_item_matrix self) with (pivot_table ratings).
  destruct (find_index _ _) as [idx|] eqn:Hidx; [|exists []; split; [reflexivity|simpl; lia]].
  destruct (find_index_some _ _ _ Hidx) as (c & Hc & _).
  assert (Hcols : (0 < length (columns (pivot_table ratings)))%nat).
  { assert (idx < length (columns (pivot_table ratings)))%nat
      by (apply nth_error_Some; congruence).
    lia. }
  change (knn_model self) with (_prepare_collaborative_model (pivot_table ratings)).
  unfold _prepare_collaborative_model, kneighbors.
  rewrite transpose_length.
  destruct (Nat.ltb_spec 0 (length (columns (pivot_table ratings)))) as [_|C]; [|lia].
  rewrite transpose_length.
  set (k := Nat.min (n + 1) (length (columns (pivot_table ratings)))).
  assert (Hk : (1 <= k <= n + 1)%nat /\ (k <= length (columns (pivot_table ratings)))%nat)
    by (unfold k; lia).
  destruct (Nat.eqb_spec k 0) as [C|_]; [lia|].
  destruct (Nat.ltb_spec (length (columns (pivot_table ratings))) k) as [C|_]; [lia|].
  simpl. eexists. split; [reflexivity|].
  eapply Nat.le_trans; [apply flat_map_length_le|].
  - intros p. destruct (movie_info self _); simpl; lia.
  - pose proof (firstn_le_length k
                  (sort_asc snd
                     (enumerate
                        (cosine_distances (column (pivot_table ratings) idx)
                           (transpose (pivot_table ratings)))))) as Hlen.
    destruct (firstn k _); simpl in *; lia.
Qed.

(** X4: for a constructed engine the neighbour search never raises (the
    requested neighbour count is capped by the number of rated movies),
    so the exception handler of [collaborative] is never reached; the
    pool holds at most [n] rows per seed. *)
Theorem collaborative_search_never_raises
    (sw : list string) (movies : list Movie) (ratings : list Rating)
    (self : RecommendationEngine) (movie_ids : list Z) (n : nat) :
  __init__ sw movies ratings = Ok self ->
  exists rows,
    pooled self n movie_ids = Ok rows
    /\ (length rows <= n * length movie_ids)%nat.
Proof.
  intros Hinit. apply init_inv in Hinit as [_ ->].
  induction movie_ids as [|k ids IH]; simpl.
  - exists []. split; [reflexivity|simpl; lia].
  - destruct (similar_movies_ok sw movies ratings n k) as (rows & -> & Hlen).
    destruct IH as (more & -> & Hmore). simpl.
    exists (rows ++ more). split; [reflexivity|]. rewrite length_app. lia.
Qed.

Lemma collaborative_search_never_raises_witness :
  exists rows,
    pooled (built sample_stop_words [movie_A; movie_B] ten_ratings) 3 [1%Z] = Ok rows
    /\ (length rows <= 3 * 1)%nat.
Proof.
  apply (collaborative_search_never_raises sample_stop_words [movie_A; movie_B]
           ten_ratings _ [1%Z] 3).
  apply init_ok, sample_vocabulary_AB.
Defined.

(** ** No movie is returned twice *)

Lemma hybrid_rows_keys (self : RecommendationEngine) (hs : scores)
    (keys : list Z) (k : Z) :
  In k (map rec_id
          (flat_map
             (fun movie_id =>
                match movie_info self movie_id with
                | Some m => [{| rec_movie := m;
                                similarity_score := dict_get hs movie_id 0 |}]
                | None => []
                end) keys)) ->
  In k keys.
Proof.
  intros H. apply in_map_iff in H as (r & <- & Hr).
  apply in_flat_map in Hr as (k' & Hk' & Hr).
  destruct (movie_info self k') as [m|] eqn:E; [|contradiction].
  destruct Hr as [<-|[]]. apply movie_info_in in E as [_ E].
  unfold rec_id. simpl. now rewrite E.
Qed.

Lemma hybrid_rows_NoDup (self : RecommendationEngine) (hs : scores)
    (keys : list Z) :
  NoDup keys ->
  NoDup (map rec_id
           (flat_map
              (fun movie_id =>
                 match movie_info self movie_id with
                 | Some m => [{| rec_movie := m;
                                 similarity_score := dict_get hs movie_id 0 |}]
                 | None => []
                 end) keys)).
Proof.
  induction 1 as [|k keys Hk Hnd IH]; [constructor|].
  cbn [flat_map]. rewrite map_app.
  destruct (movie_info self k) as [m|] eqn:E; [|exact IH].
  simpl. constructor; [|exact IH].
  intros C. apply hybrid_rows_keys in C.
  apply movie_info_in in E as [_ E]. unfold rec_id in C. simpl in C.
  rewrite E in C. contradiction.
Qed.

Lemma content_ranking_firstn_NoDup (self : RecommendationEngine) (row : list R)
    (d : Movie) (n : nat) :
  NoDup (map movieId (movies_df self)) ->
  Forall (fun p => (fst p < length (movies_df self))%nat)
         (firstn n (tl (sort_desc snd (enumerate row)))) ->
  NoDup (map rec_id (firstn n (content_ranking self row d))).
Proof.
  intros Hnd Hrange. unfold content_ranking.
  rewrite firstn_map, map_map.
  set (picked := firstn n (tl (sort_desc snd (enumerate row)))) in *.
  rewrite (map_ext _ (fun p => nth (fst p) (map movieId (movies_df self)) (movieId d)))
    by (intros p; unfold rec_id; simpl; symmetry; apply map_nth).
  rewrite <- (map_map fst (fun i => nth i (map movieId (movies_df self)) (movieId d))).
  apply NoDup_map_nth; [exact Hnd| |].
  - unfold picked. rewrite <- firstn_map, map_tl. apply NoDup_firstn, NoDup_tl.
    eapply Permutation_NoDup; [apply Permutation_map, sort_desc_perm|].
    rewrite enumerate_fst. apply seq_NoDup.
  - apply Forall_map. rewrite length_map. exact Hrange.
Qed.

Lemma distinct_ids (self : RecommendationEngine) (n : nat) :
  NoDup (map movieId (movies_df self)) ->
  NoDup (map rec_id (_get_popular_movies self n))
  /\ (forall movie_id,
        NoDup (map rec_id (content_based_recommendations self movie_id n)))
  /\ (forall movie_ids,
        NoDup (map rec_id
                 (collaborative_filtering_recommendations self movie_ids n)))
  /\ (forall movie_ids cw kw,
        NoDup (map rec_id (hybrid_recommendations self movie_ids n cw kw)))
  /\ (forall u, NoDup (map rec_id (get_user_recommendations self u n))).
Proof.
  intros Hnd.
  assert (Hpop : NoDup (map rec_id (_get_popular_movies self n))).
  { rewrite popular_is_ranking, <- firstn_map.
    now apply NoDup_firstn, popular_ranking_NoDup. }
  assert (Hcollab : forall movie_ids,
             NoDup (map rec_id
                      (collaborative_filtering_recommendations self movie_ids n))).
  { intros ids. destruct (collaborative_cases self ids n) as [->|(rows & _ & _ & ->)];
      [exact Hpop|]. rewrite <- firstn_map. apply NoDup_firstn.
    eapply Permutation_NoDup; [apply Permutation_map, sort_desc_perm|].
    apply drop_duplicates_NoDup. }
  split; [exact Hpop|]. split; [|split; [exact Hcollab|split]].
  - intros movie_id.
    destruct (content_based_cases self movie_id n movie_A)
      as [->|(i & row & _ & _ & Hrange & ->)]; [exact Hpop|].
    now apply content_ranking_firstn_NoDup.
  - intros ids cw kw. unfold hybrid_recommendations. cbv zeta.
    set (collab := collaborative_filtering_recommendations self ids (n * 2)).
    pose proof (hybrid_scores_NoDup self ids n cw kw collab) as Hkeys.
    set (hs := accumulate kw collab _) in *.
    assert (Hrows : NoDup (map rec_id
              (flat_map
                 (fun movie_id =>
                    match movie_info self movie_id with
                    | Some m => [{| rec_movie := m;
                                    similarity_score := dict_get hs movie_id 0 |}]
                    | None => []
                    end) (map fst (firstn n (sort_desc snd hs)))))).
    { apply hybrid_rows_NoDup. rewrite <- firstn_map. apply NoDup_firstn.
      eapply Permutation_NoDup; [apply Permutation_map, sort_desc_perm|exact Hkeys]. }
    destruct (flat_map _ _); [exact Hpop|exact Hrows].
  - intros u. destruct (user_recommendations_cases_any self u n) as [->|[high ->]];
      [exact Hpop|apply Hcollab].
Qed.

(** X5: when the catalog ids are distinct, no strategy returns the same
    movie id twice, whatever the state of the engine. *)
Theorem strategies_return_distinct_movies
    (self : RecommendationEngine) (n : nat) :
  NoDup (map movieId (movies_df self)) ->
  NoDup (map rec_id (_get_popular_movies self n))
  /\ (forall movie_id,
        NoDup (map rec_id (content_based_recommendations self movie_id n)))
  /\ (forall movie_ids,
        NoDup (map rec_id
                 (collaborative_filtering_recommendations self movie_ids n)))
  /\ (forall movie_ids cw kw,
        NoDup (map rec_id (hybrid_recommendations self movie_ids n cw kw)))
  /\ (forall u, NoDup (map rec_id (get_user_recommendations self u n))).
Proof. apply distinct_ids. Qed.

Lemma strategies_return_distinct_movies_witness :
  NoDup (map rec_id
           (hybrid_recommendations
              (built sample_stop_words [movie_A; movie_B] ten_ratings)
              [1%Z] 3 (6 / 10) (4 / 10))).
Proof.
  apply (strategies_return_distinct_movies
           (built sample_stop_words [movie_A; movie_B] ten_ratings) 3).
  simpl. constructor; [intros [H|[]]; discriminate|].
  constructor; [intros []|constructor].
Defined.

(** ** Every row is a catalog movie *)

Lemma popular_in_catalog (self : RecommendationEngine) (n : nat) (r : Recommendation) :
  In r (_get_popular_movies self n) -> In (rec_movie r) (movies_df self).
Proof.
  rewrite popular_is_ranking. intros H. apply in_firstn in H.
  now apply popular_ranking_in in H.
Qed.

Lemma content_based_in_catalog (self : RecommendationEngine) (movie_id : Z)
    (n : nat) (r : Recommendation) :
  In r (content_based_recommendations self movie_id n) ->
  In (rec_movie r) (movies_df self).
Proof.
  destruct (content_based_cases self movie_id n movie_A)
    as [->|(i & row & _ & _ & Hrange & ->)]; [apply popular_in_catalog|].
  unfold content_ranking. rewrite firstn_map. intros H.
  apply in_map_iff in H as (p & <- & Hp). simpl.
  apply nth_In. exact (proj1 (Forall_forall _ _) Hrange p Hp).
Qed.

Lemma pooled_in_catalog (self : RecommendationEngine) (n : nat)
    (movie_ids : list Z) (rows : list Recommendation) (r : Recommendation) :
  pooled self n movie_ids = Ok rows -> In r rows ->
  In (rec_movie r) (movies_df self).
Proof.
  revert rows. induction movie_ids as [|k ids IH]; simpl; intros rows.
  - intros [= <-] [].
  - destruct (similar_movies self n k) as [first|] eqn:E1; [|discriminate]. simpl.
    destruct (pooled self n ids) as [more|]; [|discriminate]. simpl.
    intros [= <-] Hin. apply in_app_iff in Hin as [Hin|Hin]; [|now apply (IH more)].
    unfold similar_movies in E1.
    destruct (find_index _ _); [|injection E1 as <-; contradiction].
    destruct (kneighbors _ _ _) as [nb|]; [|discriminate]. simpl in E1.
    injection E1 as <-. apply in_flat_map in Hin as (p & _ & Hin).
    destruct (movie_info self _) as [m|] eqn:Em; [|contradiction].
    destruct Hin as [<-|[]]. simpl. now apply movie_info_in in Em.
Qed.

Lemma collaborative_in_catalog (self : RecommendationEngine) (movie_ids : list Z)
    (n : nat) (r : Recommendation) :
  In r (collaborative_filtering_recommendations self movie_ids n) ->
  In (rec_movie r) (movies_df self).
Proof.
  destruct (collaborative_cases self movie_ids n) as [->|(rows & Hp & _ & ->)];
    [apply popular_in_catalog|].
  intros H. apply in_firstn, sort_desc_in, drop_duplicates_in in H.
  now apply (pooled_in_catalog self n movie_ids rows).
Qed.

(** The last fallback of [hybrid_recommendations] never changes the
    result: when no row is left, nothing is popular either. *)
Lemma hybrid_no_fallback (self : RecommendationEngine) (movie_ids : list Z)
    (n : nat) (cw kw : R) :
  let hs :=
    accumulate kw
      (collaborative_filtering_recommendations self movie_ids (n * 2))
      (accumulate cw (hybrid_content_part self movie_ids n) []) in
  hybrid_recommendations self movie_ids n cw kw
  = flat_map
      (fun movie_id =>
         match movie_info self movie_id with
         | Some m => [{| rec_movie := m;
                         similarity_score := dict_get hs movie_id 0 |}]
         | None => []
         end)
      (map fst (firstn n (sort_desc snd hs))).
Proof.
  intros hs.
  assert (Hunfold :
    hybrid_recommendations self movie_ids n cw kw
    = match flat_map
              (fun movie_id =>
                 match movie_info self movie_id with
                 | Some m => [{| rec_movie := m;
                                 similarity_score := dict_get hs movie_id 0 |}]
                 | None => []
                 end)
              (map fst (firstn n (sort_desc snd hs))) with
      | [] => _get_popular_movies self n
      | r :: rows => r :: rows
      end).
  { unfold hybrid_recommendations, hs, hybrid_content_part. cbv zeta.
    destruct movie_ids as [|first rest];
      [change (accumulate cw [] []) with (@nil (Z * R))|];
      destruct (flat_map _ _); reflexivity. }
  rewrite Hunfold. clear Hunfold.
  set (collab := collaborative_filtering_recommendations self movie_ids (n * 2)) in *.
  set (content := hybrid_content_part self movie_ids n) in *.
  destruct (flat_map _ _) as [|r rows] eqn:E; [|reflexivity].
  assert (Hn : n = 0%nat \/ (0 < n)%nat) by lia.
  destruct Hn as [Hn|Hn]; [now rewrite Hn|].
  apply (collaborative_nil_popular self movie_ids). fold collab.
  assert (Hc : collab = [] \/ collab <> []) by (destruct collab; [left|right]; easy).
  destruct Hc as [Hc|Hc]; [exact Hc|]. exfalso.
  assert (Hne : hs <> []) by now apply accumulate_nonempty.
  assert (Hhead : exists k v sorted, sort_desc snd hs = (k, v) :: sorted).
  { pose proof (sort_desc_length (@snd Z R) hs) as Hlen.
    destruct (sort_desc snd hs) as [|[k v] sorted].
    - destruct hs; [contradiction|discriminate].
    - now exists k, v, sorted. }
  destruct Hhead as (k & v & sorted & Es).
  assert (Hk : In k (map fst hs)).
  { apply in_map_iff. exists (k, v). split; [reflexivity|].
    apply (sort_desc_in (@snd Z R)). rewrite Es. now left. }
  assert (Hfound : movie_info self k <> None).
  { apply accumulate_keys in Hk as [Hk|Hk].
    - apply accumulate_keys in Hk as [[]|Hk].
      apply in_map_iff in Hk as (x & <- & Hx). apply movie_info_found.
      unfold content, hybrid_content_part in Hx.
      destruct movie_ids as [|first rest]; [contradiction|].
      now apply content_based_in_catalog in Hx.
    - apply in_map_iff in Hk as (x & <- & Hx). apply movie_info_found.
      now apply collaborative_in_catalog in Hx. }
  rewrite Es, (firstn_cons_pos _ _ _ Hn) in E. cbn [map fst flat_map] in E.
  destruct (movie_info self k); [discriminate|contradiction].
Qed.

(** ** The hybrid score *)

Lemma dict_get_set (d : scores) (k0 k : Z) (v dflt : R) :
  dict_get (dict_set d k0 v) k dflt
  = if (k =? k0)%Z then v else dict_get d k dflt.
Proof.
  induction d as [|[k' v'] d IH]; simpl.
  - destruct (k =? k0)%Z; reflexivity.
  - destruct (Z.eqb_spec k0 k') as [->|N]; simpl.
    + destruct (k =? k')%Z; reflexivity.
    + destruct (Z.eqb_spec k k') as [->|N'].
      * destruct (Z.eqb_spec k' k0) as [E|_]; [congruence|reflexivity].
      * exact IH.
Qed.

Lemma score_in_absent (recs : list Recommendation) (k : Z) :
  ~ In k (map rec_id recs) -> score_in recs k = 0.
Proof.
  intros H. unfold score_in.
  destruct (find _ recs) as [r|] eqn:E; [|reflexivity].
  apply find_some in E as [Hin E]. apply Z.eqb_eq in E.
  exfalso. apply H. rewrite <- E. now apply in_map.
Qed.

(** After a pass over rows with distinct ids, the score of an id is its
    old score plus the weight times the score the frame gives it. *)
Lemma accumulate_get (w : R) (recs : list Recommendation) (d : scores) (k : Z) :
  NoDup (map rec_id recs) ->
  dict_get (accumulate w recs d) k 0 = dict_get d k 0 + w * score_in recs k.
Proof.
  unfold accumulate. revert d.
  induction recs as [|r recs IH]; intros d Hnd; simpl.
  - unfold score_in. simpl. ring.
  - simpl in Hnd. apply NoDup_cons_iff in Hnd as [Hr Hnd].
    rewrite IH by exact Hnd. rewrite dict_get_set.
    unfold score_in at 2. simpl.
    destruct (Z.eqb_spec k (rec_id r)) as [->|N].
    + rewrite Z.eqb_refl, (score_in_absent recs (rec_id r) Hr). ring.
    + destruct (Z.eqb_spec (rec_id r) k) as [E|_]; [congruence|].
      reflexivity.
Qed.

(** X6: with distinct catalog ids, the score of every row [hybrid]
    returns is the content weight times the score [content_based(ids[0],
    2n)] gives the movie plus the collaborative weight times the score
    [collaborative(ids, 2n)] gives it, a movie missing from a frame
    counting 0; and the movie is in at least one of the two frames. *)
Theorem hybrid_score_is_weighted_sum
    (self : RecommendationEngine) (movie_ids : list Z) (n : nat) (cw kw : R)
    (r : Recommendation) :
  NoDup (map movieId (movies_df self)) ->
  In r (hybrid_recommendations self movie_ids n cw kw) ->
  let content := hybrid_content_part self movie_ids n in
  let collab := collaborative_filtering_recommendations self movie_ids (n * 2) in
  similarity_score r
  = cw * score_in content (rec_id r) + kw * score_in collab (rec_id r)
  /\ (In (rec_id r) (map rec_id content) \/ In (rec_id r) (map rec_id collab)).
Proof.
  intros Hnd Hin content collab.
  rewrite hybrid_no_fallback in Hin. cbv zeta in Hin.
  fold content collab in Hin.
  destruct (distinct_ids self (n * 2) Hnd) as (_ & Hcontent & Hcollab & _).
  assert (Hc : NoDup (map rec_id content)).
  { unfold content, hybrid_content_part.
    destruct movie_ids; [constructor|apply Hcontent]. }
  apply in_flat_map in Hin as (k & Hk & Hin).
  destruct (movie_info self k) as [m|] eqn:Em; [|contradiction].
  destruct Hin as [<-|[]]. apply movie_info_in in Em as [_ Em].
  assert (Hid : forall s, rec_id {| rec_movie := m; similarity_score := s |} = k)
    by (intros s; exact Em).
  rewrite !Hid. cbn [similarity_score].
  split.
  - rewrite (accumulate_get kw collab _ k (Hcollab movie_ids)).
    rewrite (accumulate_get cw content [] k Hc). simpl. ring.
  - apply in_map_iff in Hk as (p & <- & Hp).
    apply in_firstn, sort_desc_in in Hp.
    apply (in_map fst), accumulate_keys in Hp as [Hp|Hp]; [|now right].
    apply accumulate_keys in Hp as [[]|Hp]. now left.
Qed.

Lemma hybrid_score_is_weighted_sum_witness :
  let self := built sample_stop_words [movie_A; movie_B] [] in
  let r := {| rec_movie := movie_B; similarity_score := 0 + 2 * 1 |} in
  similarity_score r
  = 2 * score_in (hybrid_content_part self [1%Z] 1) (rec_id r)
    + 0 * score_in (collaborative_filtering_recommendations self [1%Z] (1 * 2))
                   (rec_id r)
  /\ (In (rec_id r) (map rec_id (hybrid_content_part self [1%Z] 1))
      \/ In (rec_id r)
            (map rec_id
               (collaborative_filtering_recommendations self [1%Z] (1 * 2)))).
Proof.
  apply (hybrid_score_is_weighted_sum
           (built sample_stop_words [movie_A; movie_B] []) [1%Z] 1 2 0).
  - simpl. constructor; [intros [H|[]]; discriminate|].
    constructor; [intros []|constructor].
  - rewrite hybrid_double_weight. now left.
Defined.

(** X7: whatever the state of the engine, every row a strategy returns
    is a row of the engine's catalog. *)
Theorem strategies_return_catalog_movies
    (self : RecommendationEngine) (n : nat) (r : Recommendation) :
  (In r (_get_popular_movies self n) -> In (rec_movie r) (movies_df self))
  /\ (forall movie_id,
        In r (content_based_recommendations self movie_id n) ->
        In (rec_movie r) (movies_df self))
  /\ (forall movie_ids,
        In r (collaborative_filtering_recommendations self movie_ids n) ->
        In (rec_movie r) (movies_df self))
  /\ (forall movie_ids cw kw,
        In r (hybrid_recommendations self movie_ids n cw kw) ->
        In (rec_movie r) (movies_df self))
  /\ (forall u,
        In r (get_user_recommendations self u n) ->
        In (rec_movie r) (movies_df self)).
Proof.
  split; [apply popular_in_catalog|].
  split; [intros movie_id; apply content_based_in_catalog|].
  split; [intros ids; apply collaborative_in_catalog|].
  split.
  - intros ids cw kw. rewrite hybrid_no_fallback. cbv zeta. intros H.
    now apply hybrid_rows_in in H.
  - intros u. destruct (user_recommendations_cases_any self u n) as [->|[high ->]];
      [apply popular_in_catalog|apply collaborative_in_catalog].
Qed.

(** ** Content-based recommendations of a constructed engine *)

(** The row [content_based] reads for a catalog movie. *)
Lemma built_content_lookup (sw : list string) (movies : list Movie)
    (ratings : list Rating) (movie_id : Z) :
  In movie_id (map movieId movies) ->
  exists i row,
    find_index (fun m => (movieId m =? movie_id)%Z) (map fillna_genres movies)
    = Some i
    /\ nth_error (content_similarity_matrix (built sw movies ratings)) i = Some row
    /\ length row = length movies
    /\ row = map (fun j => sim (built sw movies ratings) i j) (seq 0 (length movies)).
Proof.
  intros Hin.
  assert (Hex : exists i, find_index (fun m => (movieId m =? movie_id)%Z)
                            (map fillna_genres movies) = Some i).
  { apply in_map_iff in Hin as (m & Hm & Hin).
    apply (find_index_exists _ _ (fillna_genres m)).
    - now apply in_map.
    - simpl. now apply Z.eqb_eq. }
  destruct Hex as [i Hi]. exists i.
  assert (Hlt : (i < length movies)%nat).
  { destruct (find_index_some _ _ _ Hi) as (m & Hm & _).
    rewrite <- (length_map fillna_genres). apply nth_error_Some. congruence. }
  destruct (built_row sw movies ratings i Hlt) as (row & Hrow & Hlen & _).
  exists row. repeat split; try assumption.
  apply nth_ext with (d := 0) (d' := 0).
  - now rewrite length_map, length_seq.
  - intros j Hj. rewrite Hlen in Hj.
    rewrite nth_map_in with (d := 0%nat) by now rewrite length_seq.
    rewrite seq_nth by exact Hj. unfold sim.
    now rewrite (nth_error_nth _ _ [] Hrow).
Qed.

(** X8: for a catalog movie, what [content_based] returns does not
    depend on the ratings the engine was constructed with. *)
Theorem content_based_ignores_ratings
    (sw : list string) (movies : list Movie) (ratings1 ratings2 : list Rating)
    (self1 self2 : RecommendationEngine) (movie_id : Z) (n : nat) :
  __init__ sw movies ratings1 = Ok self1 ->
  __init__ sw movies ratings2 = Ok self2 ->
  In movie_id (map movieId movies) ->
  content_based_recommendations self1 movie_id n
  = content_based_recommendations self2 movie_id n.
Proof.
  intros H1 H2 Hin. apply init_inv in H1 as [_ ->]. apply init_inv in H2 as [_ ->].
  destruct (built_content_lookup sw movies ratings1 movie_id Hin)
    as (i & row & Hi & Hrow & Hlen & _).
  rewrite (content_based_found (built sw movies ratings1) movie_id n i row movie_A);
    [|exact Hi|exact Hrow|rewrite built_movies_length; lia].
  rewrite (content_based_found (built sw movies ratings2) movie_id n i row movie_A);
    [reflexivity|exact Hi|exact Hrow|rewrite built_movies_length; lia].
Qed.

Lemma content_based_ignores_ratings_witness :
  content_based_recommendations
    (built sample_stop_words [movie_A; movie_B] []) 1 3
  = content_based_recommendations
      (built sample_stop_words [movie_A; movie_B] ten_ratings) 1 3.
Proof.
  apply (content_based_ignores_ratings sample_stop_words [movie_A; movie_B]
           [] ten_ratings).
  - apply init_ok, sample_vocabulary_AB.
  - apply init_ok, sample_vocabulary_AB.
  - simpl. auto.
Defined.

Lemma content_based_head (sw : list string) (movies : list Movie)
    (ratings : list Rating) (movie_id : Z) :
  exists ranking,
    forall n,
      content_based_recommendations (built sw movies ratings) movie_id n
      = firstn n ranking.
Proof.
  destruct (in_dec Z.eq_dec movie_id (map movieId movies)) as [Hin|Hout].
  - destruct (content_based_built sw movies ratings movie_id movie_A Hin)
      as (i & row & _ & _ & _ & _ & Hcb).
    now exists (content_ranking (built sw movies ratings) row movie_A).
  - exists (popular_ranking (built sw movies ratings)). intros n.
    rewrite content_based_absent; [apply popular_is_ranking|].
    now rewrite built_movies.
Qed.

(** X9: for a constructed engine, asking [content_based] for more rows
    only extends the list: the answer for [n] is the first [n] rows of
    the answer for any [m >= n]. *)
Theorem content_based_prefix_stable
    (sw : list string) (movies : list Movie) (ratings : list Rating)
    (self : RecommendationEngine) (movie_id : Z) (n m : nat) :
  __init__ sw movies ratings = Ok self ->
  (n <= m)%nat ->
  content_based_recommendations self movie_id n
  = firstn n (content_based_recommendations self movie_id m).
Proof.
  intros Hinit Hnm. apply init_inv in Hinit as [_ ->].
  destruct (content_based_head sw movies ratings movie_id) as [ranking H].
  rewrite !H, firstn_firstn. f_equal. lia.
Qed.

Lemma content_based_prefix_stable_witness :
  content_based_recommendations
    (built sample_stop_words [movie_A; movie_B; movie_C] []) 1 1
  = firstn 1
      (content_based_recommendations
         (built sample_stop_words [movie_A; movie_B; movie_C] []) 1 2).
Proof.
  apply (content_based_prefix_stable sample_stop_words
           [movie_A; movie_B; movie_C] []).
  - apply init_ok. vm_compute. discriminate.
  - lia.
Defined.

(** X10: for a catalog movie found at row [i], every row [content_based]
    returns is a catalog row [j] scored with the matrix entry
    [sim(i, j)]. *)
Theorem content_based_scores_are_matrix_entries
    (sw : list string) (movies : list Movie) (ratings : list Rating)
    (self : RecommendationEngine) (movie_id : Z) (n i : nat) (r : Recommendation) :
  __init__ sw movies ratings = Ok self ->
  find_index (fun m => (movieId m =? movie_id)%Z) (movies_df self) = Some i ->
  In r (content_based_recommendations self movie_id n) ->
  exists j,
    nth_error (movies_df self) j = Some (rec_movie r)
    /\ similarity_score r = sim self i j.
Proof.
  intros Hinit Hi Hin. apply init_inv in Hinit as [_ ->].
  set (self := built sw movies ratings) in *.
  assert (Hlt : (i < length movies)%nat).
  { destruct (find_index_some _ _ _ Hi) as (m & Hm & _).
    rewrite <- (built_movies_length sw movies ratings).
    apply nth_error_Some. fold self. congruence. }
  destruct (built_row sw movies ratings i Hlt) as (row & Hrow & Hlen & _).
  fold self in Hrow.
  rewrite (content_based_found self movie_id n i row movie_A) in Hin;
    [|exact Hi|exact Hrow|unfold self; rewrite built_movies_length; lia].
  apply in_firstn in Hin. unfold content_ranking in Hin.
  apply in_map_iff in Hin as ([j x] & <- & Hp).
  apply in_tl, sort_desc_in in Hp. exists j. simpl.
  assert (Hj : (j < length row)%nat) by (apply enumerate_in in Hp; exact Hp).
  split.
  - apply nth_error_nth'. rewrite length_map. lia.
  - unfold sim. rewrite (nth_error_nth _ _ [] Hrow).
    unfold enumerate in Hp.
    apply In_nth with (d := (0%nat, 0)) in Hp as (k & Hk & E).
    rewrite length_combine, length_seq, Nat.min_id in Hk.
    rewrite combine_nth in E by now rewrite length_seq.
    rewrite seq_nth in E by exact Hk. injection E as <- <-. reflexivity.
Qed.

Lemma content_based_scores_are_matrix_entries_witness :
  exists j,
    nth_error (movies_df (built sample_stop_words [movie_A; movie_B] [])) j
    = Some movie_B
    /\ 1 = sim (built sample_stop_words [movie_A; movie_B] []) 0 j.
Proof.
  apply (content_based_scores_are_matrix_entries sample_stop_words
           [movie_A; movie_B] [] _ 1%Z 2 0
           {| rec_movie := movie_B; similarity_score := 1 |}).
  - apply init_ok, sample_vocabulary_AB.
  - reflexivity.
  - pose proof unit_rows_AB as Hu. pose proof unit_row_drama as H1.
    cbv zeta in Hu, H1. set (u := normalize _) in Hu, H1.
    rewrite (content_based_found _ 1 2 0 [dot u u; dot u u] movie_A).
    + unfold content_ranking. rewrite H1.
      unfold sort_desc, enumerate. cbn -[Rltb]. rewrite Rltb_irrefl. now left.
    + reflexivity.
    + rewrite built_matrix, Hu. reflexivity.
    + simpl. lia.
Defined.

(** ** The user-item matrix *)

Lemma sort_unique_sorted (l : list Z) : StronglySorted Z.lt (sort_unique l).
Proof.
  pose proof (sort_unique_NoDup l) as Hnd. unfold sort_unique in *.
  assert (Hord : in_order Z.ltb (stable_sort Z.ltb (nodup Z.eq_dec l))).
  { apply stable_sort_in_order.
    - intros a b H. apply Z.ltb_lt in H. apply Z.ltb_ge. lia.
    - intros a b c H1 H2. apply Z.ltb_ge in H1, H2. apply Z.ltb_ge. lia. }
  unfold in_order in Hord.
  induction Hord as [|x s Hs IH Hx]; constructor.
  - apply IH. now apply NoDup_cons_iff in Hnd.
  - apply NoDup_cons_iff in Hnd as [Hx' _].
    apply Forall_forall. intros y Hy.
    pose proof (proj1 (Forall_forall _ _) Hx y Hy) as Hle. cbv beta in Hle.
    apply Z.ltb_ge in Hle.
    assert (x <> y) by (intros ->; contradiction). lia.
Qed.

Lemma pivot_entry (ratings : list Rating) (i j : nat) (u m : Z) :
  nth_error (index (pivot_table ratings)) i = Some u ->
  nth_error (columns (pivot_table ratings)) j = Some m ->
  nth j (nth i (values (pivot_table ratings)) []) 0 = pivot_cell ratings u m.
Proof.
  unfold pivot_table. cbn [index columns values]. intros Hu Hm.
  assert (Hi : (i < length (sort_unique (map userId ratings)))%nat)
    by (apply nth_error_Some; congruence).
  assert (Hj : (j < length (sort_unique (map rated_movieId ratings)))%nat)
    by (apply nth_error_Some; congruence).
  rewrite nth_map_in with (d := u) by exact Hi.
  rewrite nth_map_in with (d := m) by exact Hj.
  now rewrite (nth_error_nth _ _ u Hu), (nth_error_nth _ _ m Hm).
Qed.

(** X11: the user-item matrix has one row per distinct user and one
    column per distinct rated movie, both in strictly increasing order of
    id; every row has a cell for every column; and the cell of a user and
    a movie without a rating row is 0. *)
Theorem user_item_matrix_shape (ratings : list Rating) :
  let df := pivot_table ratings in
  StronglySorted Z.lt (index df)
  /\ StronglySorted Z.lt (columns df)
  /\ (forall u, In u (index df) <-> In u (map userId ratings))
  /\ (forall m, In m (columns df) <-> In m (map rated_movieId ratings))
  /\ length (values df) = length (index df)
  /\ Forall (fun row => length row = length (columns df)) (values df)
  /\ (forall i j u m,
        nth_error (index df) i = Some u ->
        nth_error (columns df) j = Some m ->
        (forall r, In r ratings -> ~ (userId r = u /\ rated_movieId r = m)) ->
        nth j (nth i (values df) []) 0 = 0).
Proof.
  cbv zeta. repeat split.
  - apply sort_unique_sorted.
  - apply sort_unique_sorted.
  - apply sort_unique_in.
  - apply sort_unique_in.
  - apply sort_unique_in.
  - apply sort_unique_in.
  - unfold pivot_table. cbn [index values]. apply length_map.
  - unfold pivot_table. cbn [columns values].
    apply Forall_map, Forall_forall. intros u _. apply length_map.
  - intros i j u m Hu Hm Hnone. rewrite (pivot_entry ratings i j u m Hu Hm).
    unfold pivot_cell.
    destruct (filter _ ratings) as [|r l] eqn:F; [reflexivity|].
    assert (Hr : In r (filter (fun r => (userId r =? u)%Z && (rated_movieId r =? m)%Z)
                              ratings)) by (rewrite F; now left).
    apply filter_In in Hr as [Hin E]. apply andb_true_iff in E as [Eu Em].
    apply Z.eqb_eq in Eu, Em. exfalso. now apply (Hnone r Hin).
Qed.

(** X12: with at most one rating per user and movie, every rating row is
    found again in the matrix, at the row of its user and the column of
    its movie. *)
Theorem user_item_matrix_holds_ratings (ratings : list Rating) (r : Rating) :
  one_rating_per_pair ratings ->
  In r ratings ->
  let df := pivot_table ratings in
  exists i j,
    nth_error (index df) i = Some (userId r)
    /\ nth_error (columns df) j = Some (rated_movieId r)
    /\ nth j (nth i (values df) []) 0 = rating r.
Proof.
  intros Hnd Hin df.
  assert (Hu : In (userId r) (index df))
    by (apply sort_unique_in; now apply in_map).
  assert (Hm : In (rated_movieId r) (columns df))
    by (apply sort_unique_in; now apply in_map).
  apply In_nth_error in Hu as [i Hi]. apply In_nth_error in Hm as [j Hj].
  exists i, j. split; [exact Hi|]. split; [exact Hj|].
  unfold df. rewrite (pivot_entry ratings i j _ _ Hi Hj). unfold pivot_cell.
  pose proof (filter_unique_key ratings (userId r) (rated_movieId r) Hnd) as Hlen.
  assert (Hr : In r (filter (fun r0 => (userId r0 =? userId r)%Z
                                       && (rated_movieId r0 =? rated_movieId r)%Z)
                            ratings)).
  { apply filter_In. split; [exact Hin|]. now rewrite !Z.eqb_refl. }
  destruct (filter _ ratings) as [|r1 [|r2 l]]; simpl in *.
  - contradiction.
  - destruct Hr as [->|[]]. apply mean_single.
  - lia.
Qed.

Lemma user_item_matrix_holds_ratings_witness :
  exists i j,
    nth_error (index (pivot_table ten_ratings)) i = Some 3%Z
    /\ nth_error (columns (pivot_table ten_ratings)) j = Some 1%Z
    /\ nth j (nth i (values (pivot_table ten_ratings)) []) 0 = 5.
Proof.
  apply (user_item_matrix_holds_ratings ten_ratings (rating_5 3 1)).
  - unfold one_rating_per_pair. vm_compute.
    repeat (constructor; [simpl; intuition discriminate|]). constructor.
  - unfold ten_ratings. simpl. auto.
Defined.

(** ** The rating filter *)

Lemma filter_all {A : Type} (p : A -> bool) (l : list A) :
  (forall x, In x l -> p x = true) -> filter p l = l.
Proof.
  induction l as [|x l IH]; intros H; simpl; [reflexivity|].
  rewrite (H x (or_introl eq_refl)). f_equal. apply IH. intros y Hy.
  apply H. now right.
Qed.

Lemma preprocess_ratings_in (movies : list Movie) (ratings : list Rating) (r : Rating) :
  In r (preprocess_ratings movies ratings) <->
  In r ratings /\ In (rated_movieId r) (map movieId movies)
  /\ 0 <= rating r <= 5.
Proof.
  unfold preprocess_ratings. rewrite !filter_In, andb_true_iff, !Rleb_true_iff.
  rewrite existsb_exists. split.
  - intros [[Hin (k & Hk & E)] Hr]. apply Z.eqb_eq in E. subst k.
    apply nodup_In in Hk. auto.
  - intros (Hin & Hk & Hr). split; [split; [exact Hin|]|exact Hr].
    exists (rated_movieId r). split; [now apply nodup_In|apply Z.eqb_refl].
Qed.

(** X13: the rating filter of [preprocess_data] keeps exactly the ratings
    that reference a catalog movie and lie in [[0,5]]; its output is
    within range, applying it again changes nothing, and it keeps the
    property of one rating per user and movie. *)
Theorem preprocess_ratings_keeps_valid (movies : list Movie) (ratings : list Rating) :
  let cleaned := preprocess_ratings movies ratings in
  (forall r, In r cleaned <->
             In r ratings /\ In (rated_movieId r) (map movieId movies)
             /\ 0 <= rating r <= 5)
  /\ ratings_in_range cleaned
  /\ preprocess_ratings movies cleaned = cleaned
  /\ (one_rating_per_pair ratings -> one_rating_per_pair cleaned).
Proof.
  cbv zeta. split; [apply preprocess_ratings_in|]. split; [|split].
  - apply Forall_forall. intros r Hr. now apply preprocess_ratings_in in Hr.
  - set (cleaned := preprocess_ratings movies ratings).
    assert (Hc : forall r, In r cleaned ->
               In (rated_movieId r) (map movieId movies) /\ 0 <= rating r <= 5).
    { intros r Hr. now apply preprocess_ratings_in in Hr. }
    unfold preprocess_ratings at 1.
    rewrite (filter_all _ cleaned).
    + apply filter_all. intros r Hr. destruct (Hc r Hr) as [_ [H0 H5]].
      apply andb_true_iff. split; now apply Rleb_true_iff.
    + intros r Hr. destruct (Hc r Hr) as [Hk _]. apply existsb_exists.
      exists (rated_movieId r). split; [now apply nodup_In|apply Z.eqb_refl].
  - unfold one_rating_per_pair, preprocess_ratings. intros Hnd.
    now apply NoDup_map_filter, NoDup_map_filter.
Qed.

(** ** Similarity and shared genres *)

(** Movies with the same genre tokens have the same matrix row. *)
Lemma sim_same_tokens (sw : list string) (movies : list Movie)
    (ratings : list Rating) (i j k : nat) (mi mj : Movie) :
  nth_error movies i = Some mi -> nth_error movies j = Some mj ->
  genre_tokens sw mi = genre_tokens sw mj -> (k < length movies)%nat ->
  sim (built sw movies ratings) i k = sim (built sw movies ratings) j k.
Proof.
  intros Hi Hj Esame Hk.
  destruct (catalog_docs_nth sw movies i mi Hi) as (Hni & _ & Hli).
  destruct (catalog_docs_nth sw movies j mj Hj) as (Hnj & _ & Hlj).
  rewrite !sim_built by assumption. cbv zeta. now rewrite Hni, Hnj, Esame.
Qed.

Lemma sim_same_tokens_pos (sw : list string) (movies : list Movie)
    (ratings : list Rating) (i j : nat) (mi mj : Movie) :
  nth_error movies i = Some mi -> nth_error movies j = Some mj ->
  genre_tokens sw mi = genre_tokens sw mj -> genre_tokens sw mi <> [] ->
  0 < sim (built sw movies ratings) i j.
Proof.
  intros Hi Hj Esame Hne.
  assert (Hlj : (j < length movies)%nat) by (apply nth_error_Some; congruence).
  rewrite (sim_same_tokens sw movies ratings i j j mi mj Hi Hj Esame Hlj).
  rewrite (sim_diagonal sw movies ratings j mj Hj). rewrite <- Esame.
  destruct (genre_tokens sw mi); [contradiction|lra].
Qed.

(** X14: two movies of the catalog whose genre texts give the same
    tokens have the same row in the content similarity matrix; when they
    have a token at all, their similarity is positive and equals the
    diagonal entry of each. *)
Theorem same_genres_same_similarities
    (sw : list string) (movies : list Movie) (ratings : list Rating)
    (self : RecommendationEngine) (i j : nat) (mi mj : Movie) :
  __init__ sw movies ratings = Ok self ->
  nth_error movies i = Some mi -> nth_error movies j = Some mj ->
  genre_tokens sw mi = genre_tokens sw mj ->
  (forall k, (k < length movies)%nat -> sim self i k = sim self j k)
  /\ sim self i j = sim self i i
  /\ sim self i j = sim self j j
  /\ (genre_tokens sw mi <> [] -> 0 < sim self i j).
Proof.
  intros Hinit Hi Hj Esame. apply init_inv in Hinit as [_ ->].
  assert (Hli : (i < length movies)%nat) by (apply nth_error_Some; congruence).
  assert (Hlj : (j < length movies)%nat) by (apply nth_error_Some; congruence).
  split; [|split; [|split]].
  - intros k Hk. now apply (sim_same_tokens sw movies ratings i j k mi mj).
  - rewrite (sim_symmetric sw movies ratings i j Hli Hlj).
    symmetry. now apply (sim_same_tokens sw movies ratings i j i mi mj).
  - now apply (sim_same_tokens sw movies ratings i j j mi mj).
  - now apply (sim_same_tokens_pos sw movies ratings i j mi mj).
Qed.

Lemma same_genres_same_similarities_witness :
  0 < sim (built sample_stop_words [movie_A; movie_B] []) 1 0.
Proof.
  destruct (same_genres_same_similarities sample_stop_words [movie_A; movie_B] []
              _ 1%nat 0%nat movie_B movie_A
              (init_ok _ _ _ sample_vocabulary_AB) eq_refl eq_refl eq_refl)
    as (_ & _ & _ & Hpos).
  apply Hpos. vm_compute. discriminate.
Defined.

Lemma dot_map_zero_iff {A : Type} (f g : A -> R) (l : list A) :
  (forall x, 0 <= f x) -> (forall x, 0 <= g x) ->
  (dot (map f l) (map g l) = 0 <-> forall x, In x l -> f x * g x = 0).
Proof.
  intros Hf Hg. induction l as [|x l IH]; simpl.
  - split; [intros _ y []|reflexivity].
  - rewrite dot_cons.
    assert (Hd : 0 <= dot (map f l) (map g l)).
    { apply dot_nonneg; apply Forall_map, Forall_forall; intros; cbv beta; auto. }
    pose proof (Rmult_le_pos _ _ (Hf x) (Hg x)) as Hx.
    split.
    + intros H y [<-|Hy]; [lra|]. apply IH; [lra|exact Hy].
    + intros H. rewrite (H x (or_introl eq_refl)).
      rewrite (proj2 IH); [ring|]. intros y Hy. apply H. now right.
Qed.

Lemma dot_normalize_zero_iff (u v : list R) :
  dot (normalize u) (normalize v) = 0 <-> dot u v = 0.
Proof.
  split; [|apply dot_normalize_zero].
  unfold normalize.
  pose proof (handle_zeros_pos _ (l2_norm_nonneg u)) as Hu.
  pose proof (handle_zeros_pos _ (l2_norm_nonneg v)) as Hv.
  rewrite dot_scale by lra. intros H.
  apply Rmult_eq_reg_r with (/ (handle_zeros (l2_norm u) * handle_zeros (l2_norm v))).
  - rewrite Rmult_0_l. exact H.
  - apply Rinv_neq_0_compat. nra.
Qed.

Lemma term_count_pos (t : string) (doc : list string) :
  (0 < term_count t doc)%nat <-> In t doc.
Proof. unfold term_count. symmetry. apply count_occ_In. Qed.

(** X15: the content similarity of two catalog movies is 0 exactly when
    their genre texts share no token. *)
Theorem similarity_zero_iff_no_shared_genre
    (sw : list string) (movies : list Movie) (ratings : list Rating)
    (self : RecommendationEngine) (i j : nat) (mi mj : Movie) :
  __init__ sw movies ratings = Ok self ->
  nth_error movies i = Some mi -> nth_error movies j = Some mj ->
  (sim self i j = 0 <->
   forall t, ~ (In t (genre_tokens sw mi) /\ In t (genre_tokens sw mj))).
Proof.
  intros Hinit Hi Hj. apply init_inv in Hinit as [_ ->].
  destruct (catalog_docs_nth sw movies i mi Hi) as (Hni & Hini & Hli).
  destruct (catalog_docs_nth sw movies j mj Hj) as (Hnj & Hinj & Hlj).
  rewrite sim_built by assumption. cbv zeta. rewrite Hni, Hnj.
  unfold tfidf_row. rewrite !dot_normalize_zero_iff. unfold tfidf_raw.
  set (docs := catalog_docs sw movies) in *.
  rewrite dot_map_zero_iff.
  2,3: intros t; pose proof (idf_pos docs t);
       pose proof (pos_INR (term_count t (genre_tokens sw mi)));
       pose proof (pos_INR (term_count t (genre_tokens sw mj))); nra.
  split.
  - intros H t [Hti Htj].
    assert (Hv : In t (vocabulary docs)).
    { unfold vocabulary. apply nodup_In, in_concat.
      exists (genre_tokens sw mi). now split. }
    specialize (H t Hv). pose proof (idf_pos docs t).
    apply term_count_pos, lt_INR in Hti. apply term_count_pos, lt_INR in Htj.
    simpl in Hti, Htj.
    assert (Ha : 0 < INR (term_count t (genre_tokens sw mi)) * idf docs t) by nra.
    assert (Hb : 0 < INR (term_count t (genre_tokens sw mj)) * idf docs t) by nra.
    pose proof (Rmult_lt_0_compat _ _ Ha Hb). lra.
  - intros H t _.
    destruct (in_dec string_dec t (genre_tokens sw mi)) as [Hti|Hti].
    + assert (Htj : ~ In t (genre_tokens sw mj)) by (intros C; now apply (H t)).
      unfold term_count at 2. rewrite (proj1 (count_occ_not_In _ _ _) Htj).
      simpl. ring.
    + unfold term_count at 1. rewrite (proj1 (count_occ_not_In _ _ _) Hti).
      simpl. ring.
Qed.

Lemma similarity_zero_iff_no_shared_genre_witness :
  sim (built sample_stop_words [movie_A; movie_C] []) 0 1 = 0 <->
  forall t, ~ (In t (genre_tokens sample_stop_words movie_A)
               /\ In t (genre_tokens sample_stop_words movie_C)).
Proof.
  apply (similarity_zero_iff_no_shared_genre sample_stop_words
           [movie_A; movie_C] [] _ 0%nat 1%nat movie_A movie_C).
  - apply init_ok. vm_compute. discriminate.
  - reflexivity.
  - reflexivity.
Defined.

(** ** Preprocessing, then construction *)




(** ** Statistics *)

Lemma nodup_length_le {A : Type} (dec : forall x y : A, {x = y} + {x <> y})
    (l : list A) :
  (length (nodup dec l) <= length l)%nat.
Proof.
  apply NoDup_incl_length; [apply NoDup_nodup|].
  intros x Hx. now apply nodup_In in Hx.
Qed.

(** With one rating per pair, there are no more ratings than pairs of a
    user and a catalog movie. *)
Lemma ratings_le_users_movies (movies : list Movie) (ratings : list Rating) :
  one_rating_per_pair ratings ->
  (forall r, In r ratings -> In (rated_movieId r) (map movieId movies)) ->
  (length ratings <= nunique (map userId ratings) * length movies)%nat.
Proof.
  intros Hnd Hvalid. unfold nunique.
  rewrite <- (length_map (fun r => (userId r, rated_movieId r)) ratings).
  eapply Nat.le_trans.
  - apply NoDup_incl_length with
      (l' := list_prod (nodup Z.eq_dec (map userId ratings))
                       (nodup Z.eq_dec (map movieId movies))); [exact Hnd|].
    intros [u m] Hp. apply in_map_iff in Hp as (r & [= <- <-] & Hr).
    apply in_prod; apply nodup_In; [now apply in_map|now apply Hvalid].
  - rewrite length_prod. apply Nat.mul_le_mono_l.
    eapply Nat.le_trans; [apply nodup_length_le|]. now rewrite length_map.
Qed.

(** X17: [get_data_statistics] gives no statistics when a frame is not
    loaded and divides by zero when the catalog or the ratings are
    empty; otherwise it returns the statistics, and when the ratings hold
    one row per user and movie and reference catalog movies only (as
    after [preprocess_data] on deduplicated ratings), the sparsity lies
    in [[0,1]]. *)
Theorem data_statistics_cases (movies : list Movie) (ratings : list Rating) :
  get_data_statistics None (Some ratings) = NotLoaded
  /\ get_data_statistics (Some movies) None = NotLoaded
  /\ (movies = [] \/ ratings = [] ->
      get_data_statistics (Some movies) (Some ratings) = DivisionByZero)
  /\ (movies <> [] -> ratings <> [] ->
      exists stats,
        get_data_statistics (Some movies) (Some ratings) = Statistics stats
        /\ n_movies stats = length movies
        /\ n_ratings stats = length ratings
        /\ (1 <= n_users stats <= n_ratings stats)%nat
        /\ (one_rating_per_pair ratings ->
            (forall r, In r ratings -> In (rated_movieId r) (map movieId movies)) ->
            0 <= sparsity stats <= 1)).
Proof.
  split; [reflexivity|]. split; [reflexivity|]. split.
  - intros [-> | ->]; unfold get_data_statistics, nunique; simpl;
      [now rewrite Nat.mul_0_r|reflexivity].
  - intros Hm Hr. unfold get_data_statistics.
    assert (Hu : (1 <= nunique (map userId ratings) <= length ratings)%nat).
    { unfold nunique. split.
      - destruct ratings as [|r l]; [contradiction|].
        assert (Hin : In (userId r) (nodup Z.eq_dec (map userId (r :: l))))
          by (apply nodup_In; now left).
        destruct (nodup Z.eq_dec (map userId (r :: l))); [contradiction|simpl; lia].
      - eapply Nat.le_trans; [apply nodup_length_le|]. now rewrite length_map. }
    assert (Hlen : (1 <= length movies)%nat)
      by (destruct movies; [contradiction|simpl; lia]).
    destruct (Nat.eqb_spec (nunique (map userId ratings) * length movies) 0)
      as [C|Hne]; [nia|].
    eexists. split; [reflexivity|]. cbn [n_movies n_ratings n_users sparsity].
    repeat split; try lia.
    + pose proof (ratings_le_users_movies movies ratings H H0) as Hle.
      apply le_INR in Hle.
      assert (Hpos : 0 < INR (nunique (map userId ratings) * length movies))
        by (apply lt_0_INR; lia).
      assert (Hq : INR (length ratings)
                   / INR (nunique (map userId ratings) * length movies) <= 1).
      { apply Rmult_le_reg_r with (INR (nunique (map userId ratings) * length movies));
          [exact Hpos|].
        unfold Rdiv. rewrite Rmult_assoc, Rinv_l by lra. lra. }
      lra.
    + assert (Hpos : 0 < INR (nunique (map userId ratings) * length movies))
        by (apply lt_0_INR; lia).
      assert (Hn : 0 < INR (length ratings)) by (apply lt_0_INR; lia).
      assert (Hq : 0 < INR (length ratings)
                       / INR (nunique (map userId ratings) * length movies)).
      { apply Rdiv_lt_0_compat; assumption. }
      lra.
Qed.
